(** * load_ONNX_model.cpp: the inference runner

    A shallow embedding of [main] of
    [random_forest_example/load_ONNX_model.cpp] and the properties of its
    session lifecycle, console output, exit status and name-string
    ownership.

    The program is one straight-line [try] block of calls into ONNX
    Runtime followed by one [catch (const Ort::Exception&)].  ONNX Runtime
    and the C++ standard library are not part of the repository: they are
    a parameter of the embedding (the record [Platform]), and every fact
    about them that a theorem needs is a hypothesis of that theorem. *)

From stdpp Require Import base option list gmap strings pretty.

Open Scope string_scope.
Open Scope list_scope.
Open Scope nat_scope.

(** ** Values of the program *)

(** A C++ [float] is carried as its IEEE-754 binary32 bit pattern; the
    program never computes on floats, it only passes them to the runtime
    and to [operator<<]. *)
Definition float32 : Type := Z.

Definition f1_0 : float32 := 0x3F800000%Z.
Definition f2_0 : float32 := 0x40000000%Z.
Definition f3_0 : float32 := 0x40400000%Z.
Definition f4_0 : float32 := 0x40800000%Z.

(** What a C++ expression can throw.  [Ort::Exception] is the runtime's
    own exception class; everything else ([std::bad_alloc],
    [std::length_error], ...) is a [StdException]. *)
Inductive exn : Type :=
  | OrtException (what : string)
  | StdException (what : string).

(** Result of evaluating an expression: a value, a thrown exception, or
    undefined behaviour (out-of-bounds read, dangling pointer, double
    free). *)
Inductive Res (A : Type) : Type :=
  | Ok (a : A)
  | Throw (e : exn)
  | Undefined.
Arguments Ok {A} a.
Arguments Throw {A} e.
Arguments Undefined {A}.

(** ** The runtime library, as the program sees it *)

(** [Ort::Value] holding the tensor view built by [CreateTensor<float>]:
    the caller's buffer and the shape, no copy. *)
Record Tensor : Type := mkTensor {
  tensor_data : list float32;
  tensor_shape : list Z
}.

(** An output [Ort::Value]: what [GetTensorMutableData<float>()] gives. *)
Record OrtValue : Type := mkOrtValue {
  GetTensorMutableData : Res (list float32)
}.

(** An [Ort::Session] object, as the record of the methods [main] calls.
    [GetInputName i] is the string [GetInputNameAllocated(i, allocator)]
    copies into the allocator.  [Run] receives the input names, the input
    tensor, and the requested output names.  The counts are [size_t]; the
    program only counts up to them, so they are carried as [nat]. *)
Record Session : Type := mkSession {
  GetInputCount : Res nat;
  GetInputName : nat → Res string;
  GetOutputCount : Res nat;
  GetOutputName : nat → Res string;
  Run : list string → Tensor → list string → Res (list OrtValue)
}.

(** Element types of the [std::vector]s the program builds. *)
Inductive elem : Type := ElemCharPtr | ElemFloat | ElemInt64.

Global Instance elem_eq_dec : EqDecision elem.
Proof. solve_decision. Defined.

(** Everything outside the repository that [main] calls. *)
Record Platform : Type := mkPlatform {
  (* Ort::Env env(ORT_LOGGING_LEVEL_WARNING, "test") *)
  Env_ctor : Res unit;
  (* Ort::SessionOptions session_options *)
  SessionOptions_ctor : Res unit;
  (* session_options.SetIntraOpNumThreads(n) *)
  SetIntraOpNumThreads : nat → Res unit;
  (* Ort::Session session(env, model_path, session_options) *)
  Session_ctor : string → Res Session;
  (* Ort::AllocatorWithDefaultOptions allocator *)
  Allocator_ctor : Res unit;
  (* std::vector<T> v(n) and std::vector<T> v{...}: storage for n elements *)
  vector_ctor : elem → nat → Res unit;
  (* Ort::MemoryInfo::CreateCpu(OrtArenaAllocator, OrtMemTypeDefault) *)
  CreateCpu : Res unit;
  (* Ort::Value::CreateTensor<float>(info, data, count, shape, rank) *)
  CreateTensor : list float32 → nat → list Z → nat → Res unit;
  (* std::ostream::operator<<(float) *)
  show_float : float32 → string;
  (* the file system of the process: is there a file at this path?
     ([main] never asks; the runtime does, when it opens the model) *)
  file_exists : string → bool
}.

(** ** Program state *)

(** Addresses of allocator blocks; [0] is [nullptr]. *)
Abbreviation addr := nat (only parsing).
Definition nullptr : addr := 0.

(** The default allocator: the blocks that are live, and the next fresh
    address.  Addresses are never reused, so a second [Free] of a block
    is seen as such. *)
Record Heap : Type := mkHeap {
  live : gmap nat string;
  brk : addr
}.

(** The library entry points, as recorded in the call log. *)
Inductive ApiCall : Type :=
  | CallEnv
  | CallSessionOptions
  | CallSetIntraOpNumThreads (n : nat)
  | CallSession (model_path : string)
  | CallAllocator
  | CallGetInputCount
  | CallGetInputNameAllocated (i : nat)
  | CallGetOutputCount
  | CallGetOutputNameAllocated (i : nat)
  | CallVector (T : elem) (n : nat)
  | CallCreateCpu
  | CallCreateTensor
  | CallRun
  | CallGetTensorMutableData.

Global Instance ApiCall_eq_dec : EqDecision ApiCall.
Proof. solve_decision. Defined.

(** How a logged call ended. *)
Inductive outcome : Type :=
  | Returned
  | Threw (e : exn)
  | Crashed.

Definition outcome_of {A} (r : Res A) : outcome :=
  match r with
  | Ok _ => Returned
  | Throw e => Threw e
  | Undefined => Crashed
  end.

Record State : Type := mkState {
  heap : Heap;
  cout : list string;                  (* one entry per [<< std::endl] *)
  calls : list (ApiCall * outcome)     (* library calls so far, oldest first *)
}.

Definition init_heap : Heap := mkHeap ∅ 1.
Definition init_state : State := mkState init_heap [] [].

(** ** The monad of the [try] block: state, exceptions, undefined behaviour *)

Definition M (A : Type) : Type := State → Res A * State.

Global Instance M_ret : MRet M := λ A a st, (Ok a, st).
Global Instance M_bind : MBind M := λ A B f m st,
  match m st with
  | (Ok a, st') => f a st'
  | (Throw e, st') => (Throw e, st')
  | (Undefined, st') => (Undefined, st')
  end.

Definition undefined {A} : M A := λ st, (Undefined, st).

(** A library call: logged with its outcome, then its result. *)
Definition call {A} (c : ApiCall) (r : Res A) : M A :=
  λ st, (r, mkState (heap st) (cout st) (calls st ++ [(c, outcome_of r)])).

(** [std::cout << ... << std::endl] *)
Definition print (line : string) : M unit :=
  λ st, (Ok (), mkState (heap st) (cout st ++ [line]) (calls st)).

(** The allocator copies a string into a fresh block. *)
Definition Alloc (s : string) : M addr :=
  λ st, let h := heap st in
        (Ok (brk h),
         mkState (mkHeap (<[brk h := s]> (live h)) (S (brk h))) (cout st) (calls st)).

(** [allocator.Free(p)]: the block must be live. *)
Definition Free (p : addr) : M unit :=
  λ st, let h := heap st in
        match live h !! p with
        | Some _ => (Ok (), mkState (mkHeap (delete p (live h)) (brk h)) (cout st) (calls st))
        | None => (Undefined, st)
        end.

(** Reading the C string at [p]: the block must be live. *)
Definition c_str (p : addr) : M string :=
  λ st, match live (heap st) !! p with
        | Some s => (Ok s, st)
        | None => (Undefined, st)
        end.

(** [Ort::AllocatedStringPtr], a [std::unique_ptr<char, deleter>] whose
    deleter calls [allocator.Free]. *)
Definition AllocatedStringPtr : Type := option addr.

Definition unique_get (u : AllocatedStringPtr) : addr := default nullptr u.
Definition unique_release (u : AllocatedStringPtr) : addr * AllocatedStringPtr :=
  (default nullptr u, None).
Definition unique_dtor (u : AllocatedStringPtr) : M unit :=
  match u with
  | Some p => Free p
  | None => mret ()
  end.

(** [session.GetInputNameAllocated(i, allocator)] and its output twin:
    the runtime looks the name up and copies it into the allocator. *)
Definition GetNameAllocated (c : nat → ApiCall) (name : nat → Res string)
    (i : nat) : M AllocatedStringPtr :=
  s ← call (c i) (name i);
  p ← Alloc s;
  mret (Some p).

(** ** The program *)

Definition model_path : string := "../random_forest_model_v9.onnx".

(** Lines 17-29: environment, session options, session, allocator. *)
Definition create_session (P : Platform) : M Session :=
  call CallEnv (Env_ctor P);;
  call CallSessionOptions (SessionOptions_ctor P);;
  call (CallSetIntraOpNumThreads 1) (SetIntraOpNumThreads P 1);;
  session ← call (CallSession model_path) (Session_ctor P model_path);
  call CallAllocator (Allocator_ctor P);;
  mret session.

(** Lines 37-41 and 49-53.  The two loops differ in the label printed and
    in the getter called.  [todo] are the indices still to run,
    [node_names] the vector being filled; [i] is below its size, so the
    write is in range.
<<
    for (size_t i = 0; i < n; i++) {
        Ort::AllocatedStringPtr name = session.Get..NameAllocated(i, allocator);
        std::cout << label << i << " : name=" << name.get() << std::endl;
        node_names[i] = name.release();
    }
>> *)
Fixpoint name_loop (label : string) (c : nat → ApiCall) (name : nat → Res string)
    (todo : list nat) (node_names : list addr) : M (list addr) :=
  match todo with
  | [] => mret node_names
  | i :: todo' =>
      node_name ← GetNameAllocated c name i;
      s ← c_str (unique_get node_name);
      print (label +:+ pretty i +:+ " : name=" +:+ s);;
      let '(p, node_name') := unique_release node_name in
      let node_names' := <[i := p]> node_names in
      unique_dtor node_name';;
      name_loop label c name todo' node_names'
  end.

(** Lines 32-41 and 44-53: count, vector of that many null pointers,
    the count line, the loop. *)
Definition print_nodes (P : Platform) (title label : string)
    (count_call : ApiCall) (count : Res nat)
    (c : nat → ApiCall) (name : nat → Res string) : M (list addr) :=
  num_nodes ← call count_call count;
  call (CallVector ElemCharPtr num_nodes) (vector_ctor P ElemCharPtr num_nodes);;
  let node_names := replicate num_nodes nullptr in
  print (title +:+ pretty num_nodes);;
  name_loop label c name (seq 0 num_nodes) node_names.

Definition print_input_nodes (P : Platform) (session : Session) : M (list addr) :=
  print_nodes P "Number of inputs = " "Input "
    CallGetInputCount (GetInputCount session)
    CallGetInputNameAllocated (GetInputName session).

Definition print_output_nodes (P : Platform) (session : Session) : M (list addr) :=
  print_nodes P "Number of outputs = " "Output "
    CallGetOutputCount (GetOutputCount session)
    CallGetOutputNameAllocated (GetOutputName session).

Definition input_tensor_values : list float32 := [f1_0; f2_0; f3_0; f4_0].
Definition input_tensor_shape : list Z := [1; 4]%Z.

(** Lines 56-61. *)
Definition create_input_tensor (P : Platform) : M Tensor :=
  call (CallVector ElemFloat 4) (vector_ctor P ElemFloat 4);;
  call (CallVector ElemInt64 2) (vector_ctor P ElemInt64 2);;
  call CallCreateCpu (CreateCpu P);;
  call CallCreateTensor
    (CreateTensor P input_tensor_values (length input_tensor_values)
       input_tensor_shape (length input_tensor_shape));;
  mret (mkTensor input_tensor_values input_tensor_shape).

(** The runtime reads [count] C strings through the array [names]. *)
Fixpoint c_strings (names : list addr) (count : nat) : M (list string) :=
  match count with
  | 0 => mret []
  | S k =>
      match names with
      | [] => undefined
      | p :: names' =>
          s ← c_str p;
          ss ← c_strings names' k;
          mret (s :: ss)
      end
  end.

(** What [session.Run] answers in the state [st]: it reads [input_count]
    input names and [output_count] output names through the two arrays
    it is given, and runs the graph on them.  The reads happen inside
    the call: a read that goes wrong is the call going wrong. *)
Definition Session_Run (session : Session) (input_names : list addr)
    (input : Tensor) (input_count : nat) (output_names : list addr)
    (output_count : nat) (st : State) : Res (list OrtValue) :=
  match (in_names ← c_strings input_names input_count;
         out_names ← c_strings output_names output_count;
         mret (in_names, out_names)) st with
  | (Ok (in_names, out_names), _) => Run session in_names input out_names
  | (Throw e, _) => Throw e
  | (Undefined, _) => Undefined
  end.

(** Lines 64-65:
    [session.Run(opts, input_node_names.data(), &input_tensor, 1,
                 output_node_names.data(), output_node_names.size())] *)
Definition run_inference (session : Session) (input_node_names : list addr)
    (input_tensor : Tensor) (output_node_names : list addr) : M (list OrtValue) :=
  λ st,
    call CallRun
      (Session_Run session input_node_names input_tensor 1
         output_node_names (length output_node_names) st) st.

(** Lines 68-71: [output_tensors[0]], its data, [floatarr[0]]. *)
Definition print_prediction (P : Platform) (output_tensors : list OrtValue) : M unit :=
  floatarr ←
    match output_tensors !! 0 with
    | Some v => call CallGetTensorMutableData (GetTensorMutableData v)
    | None => undefined
    end;
  match floatarr !! 0 with
  | Some f => print ("Prediction: " +:+ show_float P f)
  | None => undefined
  end.

(** Lines 74-79: [for (const char* name : node_names) allocator.Free(name);] *)
Fixpoint free_loop (node_names : list addr) : M unit :=
  match node_names with
  | [] => mret ()
  | name :: rest => Free name;; free_loop rest
  end.

(** Lines 55-79: the tensor, the inference, the prediction, the clean-up. *)
Definition infer_and_clean_up (P : Platform) (session : Session)
    (input_node_names output_node_names : list addr) : M unit :=
  input_tensor ← create_input_tensor P;
  output_tensors ← run_inference session input_node_names input_tensor output_node_names;
  print_prediction P output_tensors;;
  free_loop input_node_names;;
  free_loop output_node_names.

(** Lines 31-79: what the [try] block does with the open session. *)
Definition use_session (P : Platform) (session : Session) : M unit :=
  input_node_names ← print_input_nodes P session;
  output_node_names ← print_output_nodes P session;
  infer_and_clean_up P session input_node_names output_node_names.

(** Lines 17-79, the body of the [try] block. *)
Definition try_block (P : Platform) : M unit :=
  session ← create_session P;
  use_session P session.

(** How the process ends: [main] returns, an exception leaves [main]
    (and [std::terminate] is called), or the run had undefined
    behaviour. *)
Inductive Exit : Type :=
  | Return (code : Z)
  | Uncaught (e : exn)
  | UB.

(** Lines 15-86.  The destructors of the session, the environment, the
    vectors and the values run when the [try] block is left, on either
    path; none of them frees a name block: the vectors hold the raw
    [const char*] that [release()] handed over. *)
Definition main (P : Platform) : Exit * State :=
  match try_block P init_state with
  | (Ok _, st) => (Return 0, st)
  | (Throw (OrtException what), st) =>
      (Return (-1), (print ("Error running model inference: " +:+ what) st).2)
  | (Throw e, st) => (Uncaught e, st)
  | (Undefined, st) => (UB, st)
  end.

Definition exit_of (r : Exit * State) : Exit := r.1.
Definition stdout_of (r : Exit * State) : list string := cout r.2.
Definition heap_of (r : Exit * State) : gmap nat string := live (heap r.2).
Definition calls_of (r : Exit * State) : list (ApiCall * outcome) := calls r.2.

(** The allocator after it handed out blocks for [names], in this order,
    starting from [init_heap], none of them freed yet. *)
Definition holding (names : list string) : Heap :=
  mkHeap (map_seq 1 names) (S (length names)).

(** ** What the spec calls the model's declared signature *)

(** The session reports the names [names] through a count and an indexed
    getter: the count is their number and index [i] gives the [i]-th. *)
Definition reports (count : Res nat) (name : nat → Res string) (names : list string) : Prop :=
  count = Ok (length names) ∧ ∀ i s, names !! i = Some s → name i = Ok s.

(** The session was opened on a model that declares the inputs [ins] and
    the outputs [outs], in that order. *)
Definition declares (session : Session) (ins outs : list string) : Prop :=
  reports (GetInputCount session) (GetInputName session) ins ∧
  reports (GetOutputCount session) (GetOutputName session) outs.

(** The lines the spec expects for a list of node names. *)
Definition name_lines (label : string) (names : list string) : list string :=
  imap (λ i s, label +:+ pretty i +:+ " : name=" +:+ s) names.

Definition signature_report (ins outs : list string) : list string :=
  ["Number of inputs = " +:+ pretty (length ins)] ++ name_lines "Input " ins ++
  ["Number of outputs = " +:+ pretty (length outs)] ++ name_lines "Output " outs.

(** The line of line 71 and the line of line 82. *)
Definition prediction_line (P : Platform) (f : float32) : string :=
  "Prediction: " +:+ show_float P f.

Definition error_line (what : string) : string :=
  "Error running model inference: " +:+ what.

Definition is_prediction_line (line : string) : Prop :=
  ∃ rest, line = "Prediction: " +:+ rest.

(** The runtime refuses to open a model file that is not there, with its
    own exception. *)
Definition missing_file_raises (P : Platform) : Prop :=
  ∀ path, file_exists P path = false →
    ∃ what, Session_ctor P path = Throw (OrtException what).

(** The runtime rejects an input tensor whose shape is not the declared
    one, with its own exception. *)
Definition rejects_other_shapes (session : Session) (declared_shape : list Z) : Prop :=
  ∀ in_names t out_names,
    tensor_shape t ≠ declared_shape →
    ∃ what, Run session in_names t out_names = Throw (OrtException what).

(** Lines 17-29 go through and open [session]. *)
Record opens (P : Platform) (session : Session) : Prop := {
  opens_env : Env_ctor P = Ok ();
  opens_options : SessionOptions_ctor P = Ok ();
  opens_threads : SetIntraOpNumThreads P 1 = Ok ();
  opens_session : Session_ctor P model_path = Ok session;
  opens_allocator : Allocator_ctor P = Ok ()
}.

(** Lines 17-53 go through, on a model that declares [ins] and [outs]. *)
Record lists (P : Platform) (session : Session) (ins outs : list string) : Prop := {
  lists_opens : opens P session;
  lists_vectors : ∀ n, vector_ctor P ElemCharPtr n = Ok ();
  lists_declares : declares session ins outs
}.

(** Lines 17-61 go through: everything up to the call of [Run]. *)
Record prepared (P : Platform) (session : Session) (ins outs : list string) : Prop := {
  prep_lists : lists P session ins outs;
  prep_values : vector_ctor P ElemFloat 4 = Ok ();
  prep_shape : vector_ctor P ElemInt64 2 = Ok ();
  prep_cpu : CreateCpu P = Ok ();
  prep_tensor : CreateTensor P input_tensor_values 4 input_tensor_shape 2 = Ok ()
}.

(** A model that works on inputs of shape [shape]: fed its first input
    with such a tensor and asked for its outputs, the session returns at
    least one value, the first of which holds at least one float. *)
Definition answers (session : Session) (ins outs : list string) (shape : list Z) : Prop :=
  ∀ t, tensor_shape t = shape →
    ∃ v vs f fs,
      Run session (take 1 ins) t outs = Ok (v :: vs) ∧
      GetTensorMutableData v = Ok (f :: fs).

(** The library calls of lines 17-53, in order. *)
Definition calls_listing (ins outs : list string) : list ApiCall :=
  [CallEnv; CallSessionOptions; CallSetIntraOpNumThreads 1;
   CallSession model_path; CallAllocator] ++
  [CallGetInputCount; CallVector ElemCharPtr (length ins)] ++
  (CallGetInputNameAllocated <$> seq 0 (length ins)) ++
  [CallGetOutputCount; CallVector ElemCharPtr (length outs)] ++
  (CallGetOutputNameAllocated <$> seq 0 (length outs)).

(** The library calls of a run that reaches [session.Run], in order. *)
Definition calls_before_run (ins outs : list string) : list ApiCall :=
  calls_listing ins outs ++
  [CallVector ElemFloat 4; CallVector ElemInt64 2; CallCreateCpu; CallCreateTensor].

Definition returned (cs : list ApiCall) : list (ApiCall * outcome) :=
  (λ c, (c, Returned)) <$> cs.

(** The state after line 53: every name held, the signature printed,
    every call so far returned. *)
Definition listed (ins outs : list string) : State :=
  mkState (holding (ins ++ outs)) (signature_report ins outs)
    (returned (calls_listing ins outs)).

(** The state in which [session.Run] is called. *)
Definition ready (ins outs : list string) : State :=
  mkState (holding (ins ++ outs)) (signature_report ins outs)
    (returned (calls_before_run ins outs)).

(** ** The discipline of the call log *)

Definition all_returned (log : list (ApiCall * outcome)) : Prop :=
  Forall (λ x, x.2 = Returned) log.

(** The calls a computation adds to the log, by the way it ends: a run
    that completes saw every call return; a run that throws [e] saw
    every call return but the last, which raised [e]; a run with
    undefined behaviour saw every call return but possibly the last. *)
Definition fail_fast (o : outcome) (new : list (ApiCall * outcome)) : Prop :=
  match o with
  | Returned => all_returned new
  | Threw e => ∃ pre c, new = pre ++ [(c, Threw e)] ∧ all_returned pre
  | Crashed => ∃ pre, all_returned pre ∧ (new = pre ∨ ∃ c, new = pre ++ [(c, Crashed)])
  end.

(** The only model file a call may name is [model_path]. *)
Definition on_model_path (c : ApiCall) : Prop :=
  ∀ p, c = CallSession p → p = model_path.

(** [m] only appends to the log, stops at the first call that does not
    return, and names no other model file. *)
Definition disciplined {A} (m : M A) : Prop :=
  ∀ st, ∃ new,
    calls (m st).2 = calls st ++ new ∧
    fail_fast (outcome_of (m st).1) new ∧
    Forall (λ x, on_model_path x.1) new.

(** ** Two platforms that answer alike *)

Definition same_session (s1 s2 : Session) : Prop :=
  GetInputCount s1 = GetInputCount s2 ∧
  (∀ i, GetInputName s1 i = GetInputName s2 i) ∧
  GetOutputCount s1 = GetOutputCount s2 ∧
  (∀ i, GetOutputName s1 i = GetOutputName s2 i) ∧
  (∀ in_names t out_names, Run s1 in_names t out_names = Run s2 in_names t out_names).

Definition same_result (r1 r2 : Res Session) : Prop :=
  match r1, r2 with
  | Ok s1, Ok s2 => same_session s1 s2
  | Throw e1, Throw e2 => e1 = e2
  | Undefined, Undefined => True
  | _, _ => False
  end.

(** The runtime and the standard library answer every call [main] can
    make in the same way on [P1] and on [P2]; of the model files, only
    the one at [model_path] is compared. *)
Record same_answers (P1 P2 : Platform) : Prop := {
  same_env : Env_ctor P1 = Env_ctor P2;
  same_options : SessionOptions_ctor P1 = SessionOptions_ctor P2;
  same_threads : SetIntraOpNumThreads P1 1 = SetIntraOpNumThreads P2 1;
  same_model : same_result (Session_ctor P1 model_path) (Session_ctor P2 model_path);
  same_allocator : Allocator_ctor P1 = Allocator_ctor P2;
  same_vectors : ∀ T n, vector_ctor P1 T n = vector_ctor P2 T n;
  same_cpu : CreateCpu P1 = CreateCpu P2;
  same_tensor :
    CreateTensor P1 input_tensor_values 4 input_tensor_shape 2
    = CreateTensor P2 input_tensor_values 4 input_tensor_shape 2;
  same_floats : ∀ f, show_float P1 f = show_float P2 f
}.

(** [P], except that the model files at the paths other than
    [model_path] are those of [other]. *)
Definition with_other_files (P : Platform) (other : string → Res Session) : Platform := {|
  Env_ctor := Env_ctor P;
  SessionOptions_ctor := SessionOptions_ctor P;
  SetIntraOpNumThreads := SetIntraOpNumThreads P;
  Session_ctor := λ path, if decide (path = model_path) then Session_ctor P path else other path;
  Allocator_ctor := Allocator_ctor P;
  vector_ctor := vector_ctor P;
  CreateCpu := CreateCpu P;
  CreateTensor := CreateTensor P;
  show_float := show_float P;
  file_exists := file_exists P
|}.

(** ** Names acquired and names held *)

(** A logged call that handed a name string to the program. *)
Definition name_fetched (x : ApiCall * outcome) : bool :=
  match x with
  | (CallGetInputNameAllocated _, Returned) => true
  | (CallGetOutputNameAllocated _, Returned) => true
  | _ => false
  end.

(** The number of name strings the log says were acquired. *)
Definition acquired (log : list (ApiCall * outcome)) : nat :=
  sum_list_with (λ x, if name_fetched x then 1 else 0) log.

(** The names the getter [name] delivers for the indices [k], [k+1], ...
    below [k + n], up to the first index at which it does not return. *)
Fixpoint delivered (name : nat → Res string) (k n : nat) : list string :=
  match n with
  | 0 => []
  | S n' =>
      match name k with
      | Ok s => s :: delivered name (S k) n'
      | _ => []
      end
  end.

(** How a failed step ends the computation around it. *)
Definition fail_as {A B} (r : Res A) : Res B :=
  match r with
  | Throw e => Throw e
  | _ => Undefined
  end.

(** [m] leaves the allocator alone and acquires no name. *)
Definition steady {A} (m : M A) : Prop :=
  ∀ st, heap (m st).2 = heap st ∧ acquired (calls (m st).2) = acquired (calls st).

(** [c] is one of the two name getters: its calls count as acquisitions
    exactly when they return. *)
Definition fetches (c : nat → ApiCall) : Prop :=
  ∀ i o, name_fetched (c i, o) = match o with Returned => true | _ => false end.

(** The runtime rejects a feed that does not name every declared input,
    with its own exception. *)
Definition requires_all_inputs (session : Session) (ins : list string) : Prop :=
  ∀ in_names t out_names,
    in_names ≠ ins →
    ∃ what, Run session in_names t out_names = Throw (OrtException what).

(** ** A reference platform, for concrete runs *)

Module Ref.

(** A model file: declared inputs with their shapes, declared outputs,
    and the function the graph computes (one buffer per output). *)
Record ModelFile : Type := mkModelFile {
  inputs : list (string * list Z);
  outputs : list string;
  forward : list float32 → list (list float32)
}.

Definition name_at (names : list string) (i : nat) : Res string :=
  match names !! i with
  | Some s => Ok s
  | None => Throw (OrtException "index out of range")
  end.

Definition run (m : ModelFile) (in_names : list string) (t : Tensor)
    (out_names : list string) : Res (list OrtValue) :=
  match inputs m with
  | [(name, shape)] =>
      if decide (in_names = [name]) then
        if decide (tensor_shape t = shape) then
          if decide (out_names = outputs m) then
            Ok ((λ buf, mkOrtValue (Ok buf)) <$> forward m (tensor_data t))
          else Throw (OrtException "Invalid output name")
        else Throw (OrtException "Got invalid dimensions for input")
      else Throw (OrtException "Invalid input name")
  | _ => Throw (OrtException "Missing input")
  end.

Definition session (m : ModelFile) : Session := {|
  GetInputCount := Ok (length (inputs m));
  GetInputName := name_at (inputs m).*1;
  GetOutputCount := Ok (length (outputs m));
  GetOutputName := name_at (outputs m);
  Run := run m
|}.

Definition open (fs : gmap string ModelFile) (path : string) : Res Session :=
  match fs !! path with
  | Some m => Ok (session m)
  | None => Throw (OrtException ("Load model from " +:+ path +:+ " failed: File doesn't exist"))
  end.

(** [operator<<] on the floats of the examples; any other bit pattern is
    shown as such. *)
Definition show (f : float32) : string :=
  if decide (f = f1_0) then "1"
  else if decide (f = f2_0) then "2"
  else if decide (f = f3_0) then "3"
  else if decide (f = f4_0) then "4"
  else "float32:" +:+ pretty f.

(** A platform whose file system is [fs] and whose [std::vector]
    constructor answers [vec]. *)
Definition platform (fs : gmap string ModelFile) (vec : elem → nat → Res unit) : Platform := {|
  Env_ctor := Ok ();
  SessionOptions_ctor := Ok ();
  SetIntraOpNumThreads := λ _, Ok ();
  Session_ctor := open fs;
  Allocator_ctor := Ok ();
  vector_ctor := vec;
  CreateCpu := Ok ();
  CreateTensor := λ data count shape rank,
    if decide (Z.of_nat count = foldr Z.mul 1%Z shape) then Ok ()
    else Throw (OrtException "not enough space");
  show_float := show;
  file_exists := λ path, bool_decide (is_Some (fs !! path))
|}.

Definition vec_ok : elem → nat → Res unit := λ _ _, Ok ().

(** A regressor with one input [input] of shape [1,4] and one output
    [variable]. *)
Definition forest : ModelFile := {|
  inputs := [("input", [1; 4]%Z)];
  outputs := ["variable"];
  forward := λ _, [[f2_0]]
|}.

(** The same graph exported with five features. *)
Definition forest5 : ModelFile := {|
  inputs := [("input", [1; 5]%Z)];
  outputs := ["variable"];
  forward := λ _, [[f2_0]]
|}.

Definition good : Platform := platform {[ model_path := forest ]} vec_ok.
Definition mismatched : Platform := platform {[ model_path := forest5 ]} vec_ok.
Definition no_file : Platform := platform ∅ vec_ok.
Definition no_memory : Platform :=
  platform {[ model_path := forest ]} (λ _ _, Throw (StdException "std::bad_alloc")).


(** A graph without inputs, a graph without outputs, a graph whose
    output tensor has no element, and a graph with two inputs. *)
Definition constant_graph : ModelFile := {|
  inputs := [];
  outputs := ["variable"];
  forward := λ _, [[f2_0]]
|}.

Definition sink_graph : ModelFile := {|
  inputs := [("input", [1; 4]%Z)];
  outputs := [];
  forward := λ _, []
|}.

Definition empty_graph : ModelFile := {|
  inputs := [("input", [1; 4]%Z)];
  outputs := ["variable"];
  forward := λ _, [[]]
|}.

Definition binary_graph : ModelFile := {|
  inputs := [("left", [1; 4]%Z); ("right", [1; 4]%Z)];
  outputs := ["variable"];
  forward := λ _, [[f2_0]]
|}.

Definition no_inputs : Platform := platform {[ model_path := constant_graph ]} vec_ok.
Definition no_outputs : Platform := platform {[ model_path := sink_graph ]} vec_ok.
Definition empty_output : Platform := platform {[ model_path := empty_graph ]} vec_ok.
Definition two_inputs : Platform := platform {[ model_path := binary_graph ]} vec_ok.

(** A session that reports three inputs and fails to deliver the name
    of the third. *)
Definition flaky_session : Session := {|
  GetInputCount := Ok 3;
  GetInputName := λ i,
    match i with
    | 0 => Ok "left"
    | 1 => Ok "right"
    | _ => Throw (OrtException "name unavailable")
    end;
  GetOutputCount := Ok 1;
  GetOutputName := name_at ["variable"];
  Run := run binary_graph
|}.

Definition flaky : Platform := {|
  Env_ctor := Ok ();
  SessionOptions_ctor := Ok ();
  SetIntraOpNumThreads := λ _, Ok ();
  Session_ctor := λ _, Ok flaky_session;
  Allocator_ctor := Ok ();
  vector_ctor := vec_ok;
  CreateCpu := Ok ();
  CreateTensor := λ _ _ _ _, Ok ();
  show_float := show;
  file_exists := λ _, true
|}.

End Ref.

(** ** Reasoning about the monad *)

Lemma bind_run {A B} (m : M A) (f : A → M B) (st : State) :
  (m ≫= f) st =
  match m st with
  | (Ok a, st') => f a st'
  | (Throw e, st') => (Throw e, st')
  | (Undefined, st') => (Undefined, st')
  end.
Proof. reflexivity. Qed.

Lemma bind_ok {A B} (m : M A) (f : A → M B) st a st' :
  m st = (Ok a, st') → (m ≫= f) st = f a st'.
Proof. intros H. by rewrite bind_run, H. Qed.

Lemma bind_call {A B} c (r : Res A) (f : A → M B) st a :
  r = Ok a →
  (call c r ≫= f) st = f a (mkState (heap st) (cout st) (calls st ++ [(c, Returned)])).
Proof. intros ->. reflexivity. Qed.

(** ** The allocator *)

Lemma holding_snoc names s :
  mkHeap (<[S (length names) := s]> (map_seq 1 names)) (S (S (length names)))
  = holding (names ++ [s]).
Proof.
  unfold holding. rewrite map_seq_snoc, length_app. simpl.
  by rewrite Nat.add_1_r.
Qed.

Lemma holding_lookup pre s post :
  live (holding (pre ++ s :: post)) !! S (length pre) = Some s.
Proof.
  unfold holding. cbn [live]. apply lookup_map_seq_Some. split; [lia|].
  apply list_lookup_middle. lia.
Qed.

Lemma GetNameAllocated_ok c name i pre s out log :
  name i = Ok s →
  GetNameAllocated c name i (mkState (holding pre) out log)
  = (Ok (Some (S (length pre))),
     mkState (holding (pre ++ [s])) out (log ++ [(c i, Returned)])).
Proof.
  intros Hname. unfold GetNameAllocated.
  rewrite (bind_call _ _ _ _ s Hname). cbn [heap cout calls].
  rewrite bind_run. unfold Alloc. cbn [heap cout calls holding live brk].
  by rewrite holding_snoc.
Qed.

Lemma c_str_holding pre s post out log :
  c_str (S (length pre)) (mkState (holding (pre ++ s :: post)) out log)
  = (Ok s, mkState (holding (pre ++ s :: post)) out log).
Proof. unfold c_str. cbn [heap]. by rewrite holding_lookup. Qed.

(** One library call that returns, one block allocated, one line
    printed, one slot of the vector written. *)
Lemma name_loop_step label c name i todo v pre s out log :
  name i = Ok s →
  name_loop label c name (i :: todo) v (mkState (holding pre) out log)
  = name_loop label c name todo (<[i := S (length pre)]> v)
      (mkState (holding (pre ++ [s]))
         (out ++ [label +:+ pretty i +:+ " : name=" +:+ s])
         (log ++ [(c i, Returned)])).
Proof.
  intros Hname. cbn [name_loop].
  erewrite bind_ok by (by apply GetNameAllocated_ok).
  erewrite bind_ok by apply (c_str_holding pre s []).
  reflexivity.
Qed.

(** The whole loop, when every name is delivered: the vector slots
    [k .. k + length names - 1] receive consecutive fresh addresses. *)
Lemma name_loop_ok label c name (names : list string) :
  ∀ k v pre out log,
    (∀ j s, names !! j = Some s → name (k + j) = Ok s) →
    k + length names ≤ length v →
    name_loop label c name (seq k (length names)) v (mkState (holding pre) out log)
    = (Ok (take k v ++ seq (S (length pre)) (length names) ++ drop (k + length names) v),
       mkState (holding (pre ++ names))
         (out ++ imap (λ j s, label +:+ pretty (k + j) +:+ " : name=" +:+ s) names)
         (log ++ ((λ j, (c j, Returned)) <$> seq k (length names)))).
Proof.
  induction names as [|s names IH]; intros k v pre out log Hname Hlen.
  - cbn. rewrite !app_nil_r, Nat.add_0_r, take_drop. reflexivity.
  - cbn [length seq]. rewrite (name_loop_step _ _ _ _ _ _ _ s).
    2:{ rewrite <-(Nat.add_0_r k). by apply Hname. }
    cbn [length] in Hlen.
    rewrite IH.
    2:{ intros j s' Hj. replace (S k + j) with (k + S j) by lia. by apply Hname. }
    2:{ rewrite length_insert. lia. }
    f_equal; [f_equal|f_equal].
    + rewrite length_app. cbn [length].
      rewrite (take_S_r _ _ (S (length pre))).
      2:{ apply list_lookup_insert_eq. lia. }
      rewrite take_insert_ge by lia. rewrite drop_insert_lt by lia.
      rewrite <-app_assoc. cbn. do 3 f_equal; [f_equal; lia | f_equal; lia].
    + by rewrite <-app_assoc.
    + rewrite <-app_assoc. f_equal. cbn. rewrite Nat.add_0_r. f_equal.
      apply imap_ext. intros j s' _. cbn. do 3 f_equal. lia.
    + rewrite <-app_assoc. reflexivity.
Qed.

Lemma print_nodes_ok P title label count_call count c name names pre out log :
  reports count name names →
  vector_ctor P ElemCharPtr (length names) = Ok () →
  print_nodes P title label count_call count c name (mkState (holding pre) out log)
  = (Ok (seq (S (length pre)) (length names)),
     mkState (holding (pre ++ names))
       (out ++ [title +:+ pretty (length names)] ++ name_lines label names)
       (log ++ [(count_call, Returned); (CallVector ElemCharPtr (length names), Returned)]
            ++ ((λ j, (c j, Returned)) <$> seq 0 (length names)))).
Proof.
  intros [Hcount Hname] Hvec. unfold print_nodes.
  rewrite (bind_call _ _ _ _ _ Hcount). cbn [heap cout calls].
  rewrite (bind_call _ _ _ _ _ Hvec). cbn [heap cout calls].
  rewrite bind_run. cbn [print heap cout calls].
  rewrite (name_loop_ok _ _ _ names 0).
  - rewrite take_0, Nat.add_0_l, drop_ge, app_nil_r by (by rewrite length_replicate).
    cbn [app]. by rewrite <-!app_assoc.
  - intros j s Hj. by apply Hname.
  - by rewrite length_replicate.
Qed.

(** Reading back names that are still held. *)
Lemma c_strings_holding (names : list string) :
  ∀ count pre post out log,
    count ≤ length names →
    c_strings (seq (S (length pre)) (length names)) count
      (mkState (holding (pre ++ names ++ post)) out log)
    = (Ok (take count names), mkState (holding (pre ++ names ++ post)) out log).
Proof.
  induction names as [|s names IH]; intros [|count] pre post out log Hle;
    cbn [length] in Hle; try lia; try reflexivity.
  cbn [length seq c_strings take app].
  erewrite bind_ok by apply c_str_holding.
  replace (pre ++ s :: names ++ post) with ((pre ++ [s]) ++ names ++ post)
    by (by rewrite <-app_assoc).
  specialize (IH count (pre ++ [s]) post out log).
  rewrite length_app, Nat.add_1_r in IH.
  erewrite bind_ok by (apply IH; lia).
  reflexivity.
Qed.

(** Freeing the blocks at the front of the address range, in order. *)
Lemma free_loop_ok (names : list string) :
  ∀ b rest top out log,
    free_loop (seq b (length names))
      (mkState (mkHeap (map_seq b (names ++ rest)) top) out log)
    = (Ok (), mkState (mkHeap (map_seq (b + length names) rest) top) out log).
Proof.
  induction names as [|s names IH]; intros b rest top out log.
  - cbn. by rewrite Nat.add_0_r.
  - cbn [length seq free_loop app].
    rewrite bind_run. unfold Free. cbn [heap live brk cout calls].
    rewrite map_seq_cons, lookup_insert_eq.
    rewrite delete_insert_id by apply map_seq_cons_disjoint.
    rewrite IH. do 4 f_equal. lia.
Qed.

Lemma create_session_ok P session st :
  Env_ctor P = Ok () →
  SessionOptions_ctor P = Ok () →
  SetIntraOpNumThreads P 1 = Ok () →
  Session_ctor P model_path = Ok session →
  Allocator_ctor P = Ok () →
  create_session P st
  = (Ok session,
     mkState (heap st) (cout st)
       (calls st ++ [(CallEnv, Returned); (CallSessionOptions, Returned);
                     (CallSetIntraOpNumThreads 1, Returned);
                     (CallSession model_path, Returned);
                     (CallAllocator, Returned)])).
Proof.
  intros H1 H2 H3 H4 H5. unfold create_session.
  rewrite (bind_call _ _ _ _ _ H1). cbn [heap cout calls].
  rewrite (bind_call _ _ _ _ _ H2). cbn [heap cout calls].
  rewrite (bind_call _ _ _ _ _ H3). cbn [heap cout calls].
  rewrite (bind_call _ _ _ _ _ H4). cbn [heap cout calls].
  rewrite (bind_call _ _ _ _ _ H5). cbn [heap cout calls].
  by rewrite <-!app_assoc.
Qed.

Lemma create_input_tensor_ok P st :
  vector_ctor P ElemFloat 4 = Ok () →
  vector_ctor P ElemInt64 2 = Ok () →
  CreateCpu P = Ok () →
  CreateTensor P input_tensor_values 4 input_tensor_shape 2 = Ok () →
  create_input_tensor P st
  = (Ok (mkTensor input_tensor_values input_tensor_shape),
     mkState (heap st) (cout st)
       (calls st ++ [(CallVector ElemFloat 4, Returned); (CallVector ElemInt64 2, Returned);
                     (CallCreateCpu, Returned); (CallCreateTensor, Returned)])).
Proof.
  intros H1 H2 H3 H4. unfold create_input_tensor.
  rewrite (bind_call _ _ _ _ _ H1). cbn [heap cout calls].
  rewrite (bind_call _ _ _ _ _ H2). cbn [heap cout calls].
  rewrite (bind_call _ _ _ _ _ H3). cbn [heap cout calls].
  rewrite (bind_call _ _ _ _ _ H4). cbn [heap cout calls].
  by rewrite <-!app_assoc.
Qed.

(** ** The run up to [session.Run] *)

Lemma returned_app cs1 cs2 : returned (cs1 ++ cs2) = returned cs1 ++ returned cs2.
Proof. apply fmap_app. Qed.

Lemma returned_fmap (c : nat → ApiCall) (l : list nat) :
  returned (c <$> l) = (λ j, (c j, Returned)) <$> l.
Proof. unfold returned. by rewrite <-list_fmap_compose. Qed.

(** Lines 17-53 on a platform where they go through: the program arrives
    at line 55 in the state [listed], with the name vectors holding the
    addresses [1 .. n] and [n+1 .. n+m]. *)
Lemma try_block_lists P session ins outs :
  lists P session ins outs →
  try_block P init_state
  = infer_and_clean_up P session
      (seq 1 (length ins)) (seq (S (length ins)) (length outs)) (listed ins outs).
Proof.
  intros [[He Ho Ht Hs Ha] Hv [Hins Houts]]. unfold try_block.
  erewrite bind_ok by (by apply create_session_ok).
  unfold use_session, print_input_nodes, print_output_nodes.
  cbn [init_state heap cout calls app]. change init_heap with (holding []).
  erewrite bind_ok by (by apply print_nodes_ok).
  erewrite bind_ok by (by apply print_nodes_ok).
  cbn [heap cout calls length app].
  unfold listed, signature_report, calls_listing.
  rewrite !returned_app, !returned_fmap, <-?app_assoc. reflexivity.
Qed.

(** Lines 17-61 on a platform where they go through. *)
Lemma try_block_prepared P session ins outs :
  prepared P session ins outs →
  try_block P init_state
  = (output_tensors ←
       run_inference session (seq 1 (length ins))
         (mkTensor input_tensor_values input_tensor_shape)
         (seq (S (length ins)) (length outs));
     print_prediction P output_tensors;;
     free_loop (seq 1 (length ins));;
     free_loop (seq (S (length ins)) (length outs))) (ready ins outs).
Proof.
  intros [Hlists Hv1 Hv2 Hc Hten].
  rewrite (try_block_lists _ _ _ _ Hlists). unfold infer_and_clean_up.
  erewrite bind_ok by (by apply create_input_tensor_ok).
  unfold ready, calls_before_run. by rewrite returned_app.
Qed.

Lemma run_inference_ready session i0 ins' outs t :
  run_inference session (seq 1 (length (i0 :: ins'))) t
    (seq (S (length (i0 :: ins'))) (length outs)) (ready (i0 :: ins') outs)
  = call CallRun (Run session [i0] t outs) (ready (i0 :: ins') outs).
Proof.
  unfold run_inference, Session_Run, ready.
  pose proof (c_strings_holding (i0 :: ins') 1 [] outs) as Hin.
  pose proof (c_strings_holding outs (length outs) (i0 :: ins') []) as Hout.
  rewrite app_nil_r in Hout. cbn [app length] in Hin, Hout.
  erewrite bind_ok by (apply Hin; lia).
  rewrite length_seq.
  erewrite bind_ok by (by apply Hout).
  by rewrite firstn_all.
Qed.

Lemma clean_up_ready ins outs out log :
  (free_loop (seq 1 (length ins));; free_loop (seq (S (length ins)) (length outs)))
    (mkState (holding (ins ++ outs)) out log)
  = (Ok (), mkState (mkHeap ∅ (S (length (ins ++ outs)))) out log).
Proof.
  unfold holding. erewrite bind_ok by apply free_loop_ok.
  rewrite <-(app_nil_r outs) at 2. rewrite free_loop_ok. reflexivity.
Qed.

(** The run on which everything goes through: both lines of names, the
    prediction, and a heap on which every block was freed once. *)
Lemma main_success P session i0 ins' outs v vs f fs :
  prepared P session (i0 :: ins') outs →
  Run session [i0] (mkTensor input_tensor_values input_tensor_shape) outs = Ok (v :: vs) →
  GetTensorMutableData v = Ok (f :: fs) →
  main P
  = (Return 0,
     mkState (mkHeap ∅ (S (length (i0 :: ins' ++ outs))))
       (signature_report (i0 :: ins') outs ++ [prediction_line P f])
       (returned (calls_before_run (i0 :: ins') outs ++ [CallRun; CallGetTensorMutableData]))).
Proof.
  intros Hprep Hrun Hdata. unfold main.
  rewrite (try_block_prepared _ _ _ _ Hprep).
  rewrite bind_run, run_inference_ready, Hrun. cbn [call outcome_of].
  rewrite bind_run. unfold print_prediction. cbn [lookup list_lookup].
  rewrite (bind_call _ _ _ _ _ Hdata). cbn [lookup list_lookup print heap cout calls ready].
  rewrite clean_up_ready, returned_app, <-app_assoc. reflexivity.
Qed.

(** The run on which [session.Run] raises the runtime's exception: the
    names are still held when [main] returns. *)
Lemma main_run_throws P session i0 ins' outs what :
  prepared P session (i0 :: ins') outs →
  Run session [i0] (mkTensor input_tensor_values input_tensor_shape) outs
    = Throw (OrtException what) →
  main P
  = (Return (-1),
     mkState (holding (i0 :: ins' ++ outs))
       (signature_report (i0 :: ins') outs ++ [error_line what])
       (returned (calls_before_run (i0 :: ins') outs) ++ [(CallRun, Threw (OrtException what))])).
Proof.
  intros Hprep Hrun. unfold main.
  rewrite (try_block_prepared _ _ _ _ Hprep).
  rewrite bind_run, run_inference_ready, Hrun. reflexivity.
Qed.

(** ** The call log *)

Lemma fail_fast_app o new1 new2 :
  all_returned new1 → fail_fast o new2 → fail_fast o (new1 ++ new2).
Proof.
  intros H1. destruct o as [|e|]; cbn.
  - intros H2. by apply Forall_app.
  - intros (pre & c & -> & Hpre). exists (new1 ++ pre), c.
    split; [by rewrite app_assoc | by apply Forall_app].
  - intros (pre & Hpre & Hnew). exists (new1 ++ pre).
    split; [by apply Forall_app|].
    destruct Hnew as [->|[c ->]]; [by left | right; exists c; by rewrite app_assoc].
Qed.

Lemma disciplined_silent {A} (m : M A) :
  (∀ st, calls (m st).2 = calls st ∧ ∀ e, (m st).1 ≠ Throw e) → disciplined m.
Proof.
  intros H st. exists []. destruct (H st) as [Hc Hne].
  rewrite app_nil_r. split; [done|]. split; [|constructor].
  destruct (m st).1 as [a|e|]; cbn.
  - constructor.
  - by destruct (Hne e).
  - exists []. split; [constructor | by left].
Qed.

Lemma disciplined_ret {A} (a : A) : disciplined (mret a).
Proof. apply disciplined_silent. intros st. by split. Qed.

Lemma disciplined_undefined {A} : disciplined (@undefined A).
Proof. apply disciplined_silent. intros st. by split. Qed.

Lemma disciplined_print line : disciplined (print line).
Proof. apply disciplined_silent. intros st. by split. Qed.

Lemma disciplined_Alloc s : disciplined (Alloc s).
Proof. apply disciplined_silent. intros st. by split. Qed.

Lemma disciplined_Free p : disciplined (Free p).
Proof.
  apply disciplined_silent. intros st. unfold Free.
  by destruct (live (heap st) !! p); split.
Qed.

Lemma disciplined_c_str p : disciplined (c_str p).
Proof.
  apply disciplined_silent. intros st. unfold c_str.
  by destruct (live (heap st) !! p); split.
Qed.

Lemma disciplined_call {A} c (r : Res A) : on_model_path c → disciplined (call c r).
Proof.
  intros Hc st. exists [(c, outcome_of r)]. cbn. split; [done|]. split.
  - destruct r as [a|e|]; cbn.
    + by repeat constructor.
    + exists [], c. by split; [|constructor].
    + exists []. split; [constructor|]. right. by exists c.
  - by repeat constructor.
Qed.

Lemma disciplined_bind {A B} (m : M A) (f : A → M B) :
  disciplined m → (∀ a, disciplined (f a)) → disciplined (m ≫= f).
Proof.
  intros Hm Hf st. rewrite bind_run.
  destruct (Hm st) as (new1 & Hc1 & Hff1 & Hp1).
  destruct (m st) as [[a|e|] st1]; cbn in *; [|by exists new1..].
  destruct (Hf a st1) as (new2 & Hc2 & Hff2 & Hp2).
  exists (new1 ++ new2). rewrite Hc2, Hc1, <-app_assoc.
  split; [done|]. split; [by apply fail_fast_app | by apply Forall_app].
Qed.

Lemma disciplined_unique_dtor u : disciplined (unique_dtor u).
Proof. destruct u; [apply disciplined_Free | apply disciplined_ret]. Qed.

Create HintDb discipline.
#[local] Hint Resolve disciplined_ret disciplined_undefined disciplined_print
  disciplined_Alloc disciplined_Free disciplined_c_str disciplined_unique_dtor
  : discipline.

(** Walks down a chain of binds; a call is fine when it is not a
    [CallSession], or is the one on [model_path]. *)
Ltac discipline :=
  repeat first
    [ apply disciplined_bind; [|intros ?]
    | apply disciplined_call; intros ? [=]; by subst
    | progress auto with discipline ].

Lemma disciplined_name_loop label c name todo :
  (∀ i, on_model_path (c i)) →
  ∀ v, disciplined (name_loop label c name todo v).
Proof.
  intros Hc. induction todo as [|i todo IH]; intros v; cbn [name_loop].
  - discipline.
  - unfold GetNameAllocated. discipline. by apply disciplined_call.
Qed.

Lemma disciplined_c_strings names : ∀ count, disciplined (c_strings names count).
Proof.
  induction names as [|p names IH]; intros [|count]; cbn [c_strings]; discipline.
Qed.

Lemma disciplined_free_loop names : disciplined (free_loop names).
Proof. induction names as [|p names IH]; cbn [free_loop]; discipline. Qed.

Lemma disciplined_run_inference session v_in t v_out :
  disciplined (run_inference session v_in t v_out).
Proof.
  intros st. unfold run_inference.
  apply (disciplined_call CallRun (Session_Run session v_in t 1 v_out (length v_out) st)).
  by intros ? [=].
Qed.

#[local] Hint Resolve disciplined_c_strings disciplined_free_loop
  disciplined_run_inference : discipline.

Lemma disciplined_try_block P : disciplined (try_block P).
Proof.
  unfold try_block, create_session, use_session, print_input_nodes,
    print_output_nodes, infer_and_clean_up, create_input_tensor,
    print_prediction.
  discipline.
  - apply disciplined_name_loop. by intros ? ? [=].
  - apply disciplined_name_loop. by intros ? ? [=].
  - match goal with |- context [?l !! 0] => destruct (l !! 0) end; discipline.
  - match goal with |- context [?l !! 0] => destruct (l !! 0) end; discipline.
Qed.

(** What the log of [main] says about the way the [try] block ended. *)
Lemma calls_of_main P : calls_of (main P) = calls (try_block P init_state).2.
Proof.
  unfold calls_of, main.
  by destruct (try_block P init_state) as [[[]|[what|what]|] st].
Qed.

Lemma try_block_log P :
  fail_fast (outcome_of (try_block P init_state).1) (calls (try_block P init_state).2) ∧
  Forall (λ x, on_model_path x.1) (calls (try_block P init_state).2).
Proof.
  destruct (disciplined_try_block P init_state) as (new & -> & Hff & Hp). done.
Qed.

Lemma all_returned_In log c o : all_returned log → In (c, o) log → o = Returned.
Proof.
  unfold all_returned. rewrite Forall_forall. intros Hall Hin.
  by apply list_elem_of_In, Hall in Hin.
Qed.

(** A call that raised is the last call of the run, and what it raised
    is what leaves the [try] block. *)
Lemma raised_is_last P c e :
  In (c, Threw e) (calls_of (main P)) →
  (try_block P init_state).1 = Throw e ∧
  ∃ pre, calls_of (main P) = pre ++ [(c, Threw e)] ∧ all_returned pre.
Proof.
  rewrite calls_of_main. destruct (try_block_log P) as [Hff _].
  destruct (try_block P init_state) as [r st]. cbn [fst snd] in *.
  intros Hin. destruct r as [[]|e'|]; cbn in Hff.
  - by apply (all_returned_In _ _ _ Hff) in Hin.
  - destruct Hff as (pre & c' & Hlog & Hpre). rewrite Hlog in Hin.
    apply in_app_or in Hin as [Hin|[[= <- <-]|[]]].
    + by apply (all_returned_In _ _ _ Hpre) in Hin.
    + split; [done|]. by exists pre.
  - destruct Hff as (pre & Hpre & [Hlog|[c' Hlog]]); rewrite Hlog in Hin.
    + by apply (all_returned_In _ _ _ Hpre) in Hin.
    + apply in_app_or in Hin as [Hin|[[=]|[]]].
      by apply (all_returned_In _ _ _ Hpre) in Hin.
Qed.

(** Conversely, an exception that leaves the [try] block was raised by
    the last call. *)
Lemma thrown_was_raised P e :
  (try_block P init_state).1 = Throw e →
  ∃ pre c, calls_of (main P) = pre ++ [(c, Threw e)] ∧ all_returned pre.
Proof.
  rewrite calls_of_main. destruct (try_block_log P) as [Hff _].
  intros Hr. rewrite Hr in Hff. exact Hff.
Qed.

(** ** Two runs on platforms that answer alike *)

Lemma bind_ext {A B} (m1 m2 : M A) (f1 f2 : A → M B) st :
  m1 st = m2 st → (∀ a st', f1 a st' = f2 a st') →
  (m1 ≫= f1) st = (m2 ≫= f2) st.
Proof.
  intros Hm Hf. rewrite !bind_run, Hm.
  by destruct (m2 st) as [[a|e|] st'].
Qed.

Lemma name_loop_ext label c name1 name2 todo :
  (∀ i, name1 i = name2 i) →
  ∀ v st, name_loop label c name1 todo v st = name_loop label c name2 todo v st.
Proof.
  intros Hname. induction todo as [|i todo IH]; intros v st; [done|].
  cbn [name_loop]. unfold GetNameAllocated. rewrite Hname.
  repeat (apply bind_ext; [done|intros ??]). apply IH.
Qed.

Lemma print_nodes_ext P1 P2 title label cc count c name1 name2 st :
  (∀ T n, vector_ctor P1 T n = vector_ctor P2 T n) →
  (∀ i, name1 i = name2 i) →
  print_nodes P1 title label cc count c name1 st
  = print_nodes P2 title label cc count c name2 st.
Proof.
  intros Hvec Hname. unfold print_nodes.
  apply bind_ext; [done|intros n st1]. rewrite Hvec.
  repeat (apply bind_ext; [done|intros ??]). by apply name_loop_ext.
Qed.

Lemma use_session_ext P1 P2 s1 s2 st :
  same_answers P1 P2 → same_session s1 s2 →
  use_session P1 s1 st = use_session P2 s2 st.
Proof.
  intros [_ _ _ _ _ Hvec Hcpu Hten Hflt] (Hic & Hin & Hoc & Hon & Hrun).
  unfold use_session, print_input_nodes, print_output_nodes.
  rewrite Hic, Hoc.
  apply bind_ext; [by apply print_nodes_ext|intros v_in st1].
  apply bind_ext; [by apply print_nodes_ext|intros v_out st2].
  unfold infer_and_clean_up.
  apply bind_ext; [|intros t st3].
  { unfold create_input_tensor. rewrite !Hvec, Hcpu.
    change (length input_tensor_values) with 4.
    change (length input_tensor_shape) with 2. by rewrite Hten. }
  apply bind_ext; [|intros o st4].
  { unfold run_inference, Session_Run.
    match goal with
    | |- context [match ?x with _ => _ end] =>
        destruct x as [[[in_names out_names]|e|] st3']; [|done..]
    end.
    by rewrite Hrun. }
  apply bind_ext; [|done].
  unfold print_prediction. apply bind_ext; [done|intros d st5].
  destruct (d !! 0); [by rewrite Hflt | done].
Qed.

Lemma try_block_ext P1 P2 st :
  same_answers P1 P2 → try_block P1 st = try_block P2 st.
Proof.
  intros Hsame. pose proof Hsame as [He Ho Ht Hs Ha _ _ _ _].
  unfold try_block, create_session, call. rewrite He, Ho, Ht, Ha, !bind_run.
  destruct (Env_ctor P2) as [[]|e|]; [|done..].
  destruct (SessionOptions_ctor P2) as [[]|e|]; [|done..].
  destruct (SetIntraOpNumThreads P2 1) as [[]|e|]; [|done..].
  destruct (Session_ctor P1 model_path) as [s1|e1|],
    (Session_ctor P2 model_path) as [s2|e2|]; cbn in Hs; try done.
  - cbn [outcome_of]. destruct (Allocator_ctor P2) as [[]|e|]; [|done..].
    by apply use_session_ext.
  - by subst.
Qed.

Lemma main_ext P1 P2 : same_answers P1 P2 → main P1 = main P2.
Proof. intros Hsame. unfold main. by rewrite (try_block_ext P1 P2). Qed.

Lemma same_session_refl s : same_session s s.
Proof. by repeat split. Qed.

Lemma same_result_refl r : same_result r r.
Proof. destruct r; cbn; auto using same_session_refl. Qed.

(** ** What the tail of the [try] block prints *)

Lemma Free_frame p st :
  cout (Free p st).2 = cout st ∧ calls (Free p st).2 = calls st ∧
  ∀ e, (Free p st).1 ≠ Throw e.
Proof. unfold Free. by destruct (live (heap st) !! p). Qed.

Lemma free_loop_frame names :
  ∀ st, cout (free_loop names st).2 = cout st ∧
        calls (free_loop names st).2 = calls st ∧
        ∀ e, (free_loop names st).1 ≠ Throw e.
Proof.
  induction names as [|p names IH]; intros st; cbn [free_loop]; [done|].
  rewrite bind_run. destruct (Free_frame p st) as (Hc & Hl & Hne).
  destruct (Free p st) as [[[]|e|] st1]; cbn [fst snd] in *.
  - destruct (IH st1) as (Hc' & Hl' & Hne'). by rewrite Hc', Hl', Hc, Hl.
  - by destruct (Hne e).
  - done.
Qed.

Lemma c_strings_frame names :
  ∀ count st, (c_strings names count st).2 = st ∧
              ∀ e, (c_strings names count st).1 ≠ Throw e.
Proof.
  induction names as [|p names IH]; intros [|count] st; cbn [c_strings]; try done.
  rewrite bind_run. unfold c_str.
  destruct (live (heap st) !! p) as [s|]; [|done].
  rewrite bind_run. destruct (IH count st) as [Hst Hne].
  destruct (c_strings names count st) as [[ss|e|] st1]; cbn [fst snd] in *; subst.
  - done.
  - by destruct (Hne e).
  - done.
Qed.

Lemma create_input_tensor_quiet P st : cout (create_input_tensor P st).2 = cout st.
Proof.
  unfold create_input_tensor, call. rewrite !bind_run.
  destruct (vector_ctor P ElemFloat 4) as [[]|e|]; [|done..].
  destruct (vector_ctor P ElemInt64 2) as [[]|e|]; [|done..].
  destruct (CreateCpu P) as [[]|e|]; [|done..].
  by destruct (CreateTensor P _ _ _ _) as [[]|e|].
Qed.

Lemma run_inference_frame session v_in t v_out st :
  cout (run_inference session v_in t v_out st).2 = cout st ∧
  ∀ o, (run_inference session v_in t v_out st).1 = Ok o →
       In (CallRun, Returned) (calls (run_inference session v_in t v_out st).2).
Proof.
  unfold run_inference, call. cbn [fst snd cout calls]. split; [done|].
  intros o ->. apply in_or_app. right. by left.
Qed.

Lemma print_prediction_frame P output_tensors st :
  match (print_prediction P output_tensors st).1 with
  | Ok _ => ∃ f, cout (print_prediction P output_tensors st).2
                 = cout st ++ [prediction_line P f] ∧
                 ∀ x, In x (calls st) →
                      In x (calls (print_prediction P output_tensors st).2)
  | _ => cout (print_prediction P output_tensors st).2 = cout st
  end.
Proof.
  unfold print_prediction. rewrite bind_run.
  destruct (output_tensors !! 0) as [v|]; [|done].
  unfold call. destruct (GetTensorMutableData v) as [floatarr|e|]; [|done..].
  destruct (floatarr !! 0) as [f|]; [|done].
  cbn. exists f. split; [done|]. intros x Hx. apply in_or_app. by left.
Qed.

(** Lines 55-79 print the prediction line and nothing else; they print
    it whenever they run to the end, and never before an exception. *)
Lemma infer_and_clean_up_prints P session v_in v_out st :
  match (infer_and_clean_up P session v_in v_out st).1 with
  | Ok _ =>
      (∃ f, cout (infer_and_clean_up P session v_in v_out st).2
            = cout st ++ [prediction_line P f]) ∧
      In (CallRun, Returned) (calls (infer_and_clean_up P session v_in v_out st).2)
  | Throw _ => cout (infer_and_clean_up P session v_in v_out st).2 = cout st
  | Undefined =>
      cout (infer_and_clean_up P session v_in v_out st).2 = cout st ∨
      ∃ f, cout (infer_and_clean_up P session v_in v_out st).2
           = cout st ++ [prediction_line P f]
  end.
Proof.
  unfold infer_and_clean_up. rewrite bind_run.
  pose proof (create_input_tensor_quiet P st) as H1.
  destruct (create_input_tensor P st) as [[t|e|] st1]; cbn [fst snd] in *; auto.
  rewrite bind_run.
  destruct (run_inference_frame session v_in t v_out st1) as [H2 Hrun].
  destruct (run_inference session v_in t v_out st1) as [[o|e|] st2];
    cbn [fst snd] in *; [|congruence|left; congruence].
  specialize (Hrun o eq_refl). rewrite bind_run.
  pose proof (print_prediction_frame P o st2) as H3.
  destruct (print_prediction P o st2) as [[[]|e|] st3];
    cbn [fst snd] in *; [|congruence|left; congruence].
  destruct H3 as (f & H3 & Hmono). rewrite bind_run.
  destruct (free_loop_frame v_in st3) as (Hc4 & Hl4 & Hne4).
  destruct (free_loop v_in st3) as [[[]|e|] st4]; cbn [fst snd] in *.
  - destruct (free_loop_frame v_out st4) as (Hc5 & Hl5 & Hne5).
    destruct (free_loop v_out st4) as [[[]|e|] st5]; cbn [fst snd] in *.
    + split; [exists f; congruence|]. rewrite Hl5, Hl4. auto.
    + by destruct (Hne5 e).
    + right. exists f. congruence.
  - by destruct (Hne4 e).
  - right. exists f. congruence.
Qed.

(** A [try] block that runs to its end has called [Run], seen it return,
    and printed the prediction as its last line. *)
Lemma try_block_completes P :
  (try_block P init_state).1 = Ok () →
  (∃ f, last (cout (try_block P init_state).2) = Some (prediction_line P f)) ∧
  In (CallRun, Returned) (calls (try_block P init_state).2).
Proof.
  unfold try_block. rewrite bind_run.
  destruct (create_session P init_state) as [[session|e|] st0]; [|done..].
  unfold use_session. rewrite bind_run.
  destruct (print_input_nodes P session st0) as [[v_in|e|] st1]; [|done..].
  rewrite bind_run.
  destruct (print_output_nodes P session st1) as [[v_out|e|] st2]; [|done..].
  pose proof (infer_and_clean_up_prints P session v_in v_out st2) as H.
  destruct (infer_and_clean_up P session v_in v_out st2) as [[[]|e|] st3];
    cbn [fst snd] in *; [|done..].
  intros _. destruct H as [[f ->] Hrun]. split; [|done].
  exists f. apply last_snoc.
Qed.

(** ** Lines that are not the prediction line *)

Lemma error_line_not_prediction what : ¬ is_prediction_line (error_line what).
Proof. by intros [rest [=]]. Qed.

Lemma name_lines_not_prediction names line :
  In line (name_lines "Input " names) ∨ In line (name_lines "Output " names) →
  ¬ is_prediction_line line.
Proof.
  unfold name_lines. rewrite <-!list_elem_of_In, !elem_of_lookup_imap.
  by intros [(i & s & -> & _)|(i & s & -> & _)] [rest [=]].
Qed.

Lemma signature_report_not_prediction ins outs line :
  In line (signature_report ins outs) → ¬ is_prediction_line line.
Proof.
  unfold signature_report. rewrite !in_app_iff. cbn [In].
  intros [[<-|[]]|[Hin|[[<-|[]]|Hin]]].
  - by intros [rest [=]].
  - eapply name_lines_not_prediction; eauto.
  - by intros [rest [=]].
  - eapply name_lines_not_prediction; eauto.
Qed.

(** ** The reference platform *)

Lemma Ref_reports names : reports (Ok (length names)) (Ref.name_at names) names.
Proof. split; [done|]. intros i s Hi. unfold Ref.name_at. by rewrite Hi. Qed.

Lemma Ref_declares m :
  declares (Ref.session m) (Ref.inputs m).*1 (Ref.outputs m).
Proof.
  split; cbn; [|apply Ref_reports].
  rewrite <-(length_fmap fst). apply Ref_reports.
Qed.

Lemma Ref_prepared fs m :
  fs !! model_path = Some m →
  prepared (Ref.platform fs Ref.vec_ok) (Ref.session m) (Ref.inputs m).*1 (Ref.outputs m).
Proof.
  intros Hm. split; [split; [split|..]|..]; try done.
  - cbn. unfold Ref.open. by rewrite Hm.
  - apply Ref_declares.
Qed.

Lemma Ref_missing_file_raises fs vec : missing_file_raises (Ref.platform fs vec).
Proof.
  intros path Hmissing. cbn in *. unfold Ref.open.
  destruct (fs !! path) as [m|]; [|by eexists].
  by apply bool_decide_eq_false_1 in Hmissing as []; eexists.
Qed.

(** Three runs of the reference platform: a model of the right shape,
    no model file, and no memory for the first vector. *)
Example run_good :
  main Ref.good
  = (Return 0,
     mkState (mkHeap ∅ 3)
       ["Number of inputs = 1"; "Input 0 : name=input";
        "Number of outputs = 1"; "Output 0 : name=variable"; "Prediction: 2"]
       (returned (calls_before_run ["input"] ["variable"]
                  ++ [CallRun; CallGetTensorMutableData]))).
Proof. by vm_compute. Qed.

Example run_no_file :
  exit_of (main Ref.no_file) = Return (-1) ∧
  stdout_of (main Ref.no_file)
  = ["Error running model inference: Load model from ../random_forest_model_v9.onnx failed: File doesn't exist"].
Proof. by vm_compute. Qed.

Example run_no_memory :
  exit_of (main Ref.no_memory) = Uncaught (StdException "std::bad_alloc") ∧
  stdout_of (main Ref.no_memory) = [].
Proof. by vm_compute. Qed.

Lemma Ref_rejects m name shape :
  Ref.inputs m = [(name, shape)] → rejects_other_shapes (Ref.session m) shape.
Proof.
  intros Hm in_names t out_names Hne. cbn. unfold Ref.run. rewrite Hm.
  repeat case_decide; by eauto.
Qed.

Lemma Ref_answers m name shape out f fs :
  Ref.inputs m = [(name, shape)] →
  (∀ data, Ref.forward m data = (f :: fs) :: out) →
  answers (Ref.session m) [name] (Ref.outputs m) shape.
Proof.
  intros Hm Hfwd t Hshape. cbn. unfold Ref.run. rewrite Hm, Hfwd.
  rewrite !decide_True by done. cbn. by eauto 10.
Qed.

(** ** The handler *)

Lemma exit_of_main P :
  exit_of (main P)
  = match (try_block P init_state).1 with
    | Ok _ => Return 0
    | Throw (OrtException _) => Return (-1)
    | Throw e => Uncaught e
    | Undefined => UB
    end.
Proof.
  unfold exit_of, main.
  by destruct (try_block P init_state) as [[[]|[what|what]|] st].
Qed.

Lemma stdout_of_main P :
  stdout_of (main P)
  = match (try_block P init_state).1 with
    | Throw (OrtException what) => cout (try_block P init_state).2 ++ [error_line what]
    | _ => cout (try_block P init_state).2
    end.
Proof.
  unfold stdout_of, main.
  by destruct (try_block P init_state) as [[[]|[what|what]|] st].
Qed.

(** ** The claims *)

(** C1 (refuted on the code): the name strings are not released on the
    path where [session.Run] raises.  On a model exported with five
    features the runtime rejects the [1,4] tensor, [main] returns [-1],
    and the two blocks allocated for the names ["input"] and
    ["variable"] are still live: the clean-up loops of lines 74-79 sit
    inside the [try] block and are skipped. *)
Theorem names_leak_when_run_throws :
  exit_of (main Ref.mismatched) = Return (-1) ∧
  heap_of (main Ref.mismatched) = {[ 1 := "input"; 2 := "variable" ]}.
Proof.
  assert (Hprep : prepared Ref.mismatched (Ref.session Ref.forest5) ["input"] ["variable"])
    by (by apply (Ref_prepared _ Ref.forest5)).
  rewrite (main_run_throws _ _ _ _ _ "Got invalid dimensions for input" Hprep) by done.
  split; [done|]. unfold heap_of, holding. cbn. by rewrite insert_empty.
Qed.

(** On the path where nothing raises, every name is released exactly
    once: the blocks are freed one by one without a fault and none is
    left. *)
Lemma names_released_on_success P session i0 ins' outs v vs f fs :
  prepared P session (i0 :: ins') outs →
  Run session [i0] (mkTensor input_tensor_values input_tensor_shape) outs = Ok (v :: vs) →
  GetTensorMutableData v = Ok (f :: fs) →
  exit_of (main P) = Return 0 ∧ heap_of (main P) = ∅.
Proof. intros Hprep Hrun Hdata. by rewrite (main_success _ _ _ _ _ _ _ _ _ Hprep Hrun Hdata). Qed.

(** C2: when the model declares an input shape other than the [1,4] of
    the tensor the program builds, and the runtime rejects such a tensor
    with its exception, the run ends in the handler: the error line is
    the last line, [main] returns [-1], and no line of the output is a
    prediction line. *)
Theorem shape_mismatch_fails P session i0 ins' outs declared_shape :
  prepared P session (i0 :: ins') outs →
  rejects_other_shapes session declared_shape →
  input_tensor_shape ≠ declared_shape →
  ∃ what,
    exit_of (main P) = Return (-1) ∧
    stdout_of (main P) = signature_report (i0 :: ins') outs ++ [error_line what] ∧
    ∀ line, In line (stdout_of (main P)) → ¬ is_prediction_line line.
Proof.
  intros Hprep Hrej Hne.
  destruct (Hrej [i0] (mkTensor input_tensor_values input_tensor_shape) outs Hne)
    as [what Hrun].
  exists what. rewrite (main_run_throws _ _ _ _ _ _ Hprep Hrun).
  split; [done|]. split; [done|].
  unfold stdout_of. cbn [snd cout]. intros line [Hin|[<-|[]]]%in_app_iff.
  - by eapply signature_report_not_prediction.
  - apply error_line_not_prediction.
Qed.

Lemma shape_mismatch_fails_witness :
  prepared Ref.mismatched (Ref.session Ref.forest5) ["input"] ["variable"] ∧
  rejects_other_shapes (Ref.session Ref.forest5) [1; 5]%Z ∧
  input_tensor_shape ≠ [1; 5]%Z ∧
  ∃ what,
    exit_of (main Ref.mismatched) = Return (-1) ∧
    stdout_of (main Ref.mismatched)
      = signature_report ["input"] ["variable"] ++ [error_line what] ∧
    ∀ line, In line (stdout_of (main Ref.mismatched)) → ¬ is_prediction_line line.
Proof.
  assert (H1 : prepared Ref.mismatched (Ref.session Ref.forest5) ["input"] ["variable"])
    by (apply (Ref_prepared _ Ref.forest5); reflexivity).
  assert (H2 : rejects_other_shapes (Ref.session Ref.forest5) [1; 5]%Z)
    by (apply (Ref_rejects _ "input"); reflexivity).
  assert (H3 : input_tensor_shape ≠ [1; 5]%Z) by discriminate.
  exact (conj H1 (conj H2 (conj H3 (shape_mismatch_fails _ _ _ _ _ _ H1 H2 H3)))).
Defined.

(** C3: [main] returns [0] exactly when the [try] block runs to its end,
    and then [session.Run] has returned, every library call has
    returned, and the prediction is the last line printed; [main]
    returns [-1] exactly when a library call raised [Ort::Exception]. *)
Theorem exit_status P :
  (exit_of (main P) = Return 0 ↔ (try_block P init_state).1 = Ok ()) ∧
  (exit_of (main P) = Return 0 →
     In (CallRun, Returned) (calls_of (main P)) ∧
     all_returned (calls_of (main P)) ∧
     ∃ f, last (stdout_of (main P)) = Some (prediction_line P f)) ∧
  (exit_of (main P) = Return (-1) ↔
     ∃ c what, In (c, Threw (OrtException what)) (calls_of (main P))).
Proof.
  assert (Hzero : exit_of (main P) = Return 0 ↔ (try_block P init_state).1 = Ok ()).
  { rewrite exit_of_main.
    destruct (try_block P init_state).1 as [[]|[what|what]|]; by split. }
  split; [done|]. split.
  - intros Hok%Hzero. destruct (try_block_completes P Hok) as [Hpred Hrun].
    destruct (try_block_log P) as [Hff _].
    rewrite calls_of_main, stdout_of_main. rewrite Hok in *. done.
  - split.
    + rewrite exit_of_main.
      destruct (try_block P init_state).1 as [[]|[what|what]|] eqn:Hr; try done.
      intros _. destruct (thrown_was_raised P _ Hr) as (pre & c & -> & _).
      exists c, what. apply in_or_app. right. by left.
    + intros (c & what & Hin). destruct (raised_is_last P c _ Hin) as [Hr _].
      by rewrite exit_of_main, Hr.
Qed.

(** C4: whatever library call raises [Ort::Exception] - the session
    constructor, [CreateTensor], [Run] or any other - the exception is
    caught by the one handler: the last line printed is the error line
    with the library's message, [main] returns [-1], which is not [0],
    and the call that raised is the last call of the run: every earlier
    call returned, and nothing is attempted again. *)
Theorem failure_is_fatal P c what :
  In (c, Threw (OrtException what)) (calls_of (main P)) →
  exit_of (main P) = Return (-1) ∧
  (-1 ≠ 0)%Z ∧
  last (stdout_of (main P)) = Some (error_line what) ∧
  ∃ pre, calls_of (main P) = pre ++ [(c, Threw (OrtException what))] ∧ all_returned pre.
Proof.
  intros Hin. destruct (raised_is_last P c _ Hin) as [Hr Hlast].
  rewrite exit_of_main, stdout_of_main, Hr.
  split; [done|]. split; [done|]. split; [apply last_snoc | done].
Qed.

Lemma failure_is_fatal_witness :
  In (CallRun, Threw (OrtException "Got invalid dimensions for input"))
    (calls_of (main Ref.mismatched)) ∧
  exit_of (main Ref.mismatched) = Return (-1) ∧
  (-1 ≠ 0)%Z ∧
  last (stdout_of (main Ref.mismatched))
    = Some (error_line "Got invalid dimensions for input") ∧
  ∃ pre, calls_of (main Ref.mismatched)
         = pre ++ [(CallRun, Threw (OrtException "Got invalid dimensions for input"))] ∧
         all_returned pre.
Proof.
  assert (H : In (CallRun, Threw (OrtException "Got invalid dimensions for input"))
                (calls_of (main Ref.mismatched))) by (vm_compute; tauto).
  exact (conj H (failure_is_fatal _ _ _ H)).
Defined.

(** C5: when there is no file at the model path, and the runtime refuses
    a missing file with its exception, the session constructor raises,
    the error line is the only line printed, and [main] returns [-1]. *)
Theorem missing_model_file P :
  missing_file_raises P →
  file_exists P model_path = false →
  Env_ctor P = Ok () →
  SessionOptions_ctor P = Ok () →
  SetIntraOpNumThreads P 1 = Ok () →
  ∃ what,
    Session_ctor P model_path = Throw (OrtException what) ∧
    main P
    = (Return (-1),
       mkState init_heap [error_line what]
         (returned [CallEnv; CallSessionOptions; CallSetIntraOpNumThreads 1] ++
          [(CallSession model_path, Threw (OrtException what))])).
Proof.
  intros Hlib Hmissing He Ho Ht. destruct (Hlib _ Hmissing) as [what Hs].
  exists what. split; [done|].
  unfold main, try_block, create_session.
  rewrite bind_run, (bind_call _ _ _ _ _ He), (bind_call _ _ _ _ _ Ho),
    (bind_call _ _ _ _ _ Ht), bind_run.
  unfold call at 1. by rewrite Hs.
Qed.

Lemma missing_model_file_witness :
  missing_file_raises Ref.no_file ∧
  file_exists Ref.no_file model_path = false ∧
  ∃ what,
    Session_ctor Ref.no_file model_path = Throw (OrtException what) ∧
    main Ref.no_file
    = (Return (-1),
       mkState init_heap [error_line what]
         (returned [CallEnv; CallSessionOptions; CallSetIntraOpNumThreads 1] ++
          [(CallSession model_path, Threw (OrtException what))])).
Proof.
  assert (H1 : missing_file_raises Ref.no_file) by apply Ref_missing_file_raises.
  assert (H2 : file_exists Ref.no_file model_path = false) by reflexivity.
  exact (conj H1 (conj H2
    (missing_model_file Ref.no_file H1 H2 eq_refl eq_refl eq_refl))).
Defined.

(** C6: on a model that declares the inputs [ins] and the outputs
    [outs], the program prints the number of inputs, one line per input
    with its index and name in declaration order, the number of outputs
    and one line per output likewise; the only line that can follow is
    the prediction or the error line. *)
Theorem signature_is_reported P session ins outs :
  lists P session ins outs →
  ∃ rest,
    stdout_of (main P) = signature_report ins outs ++ rest ∧
    (rest = [] ∨ (∃ f, rest = [prediction_line P f]) ∨ ∃ what, rest = [error_line what]).
Proof.
  intros Hlists. rewrite stdout_of_main, (try_block_lists _ _ _ _ Hlists).
  pose proof (infer_and_clean_up_prints P session (seq 1 (length ins))
                (seq (S (length ins)) (length outs)) (listed ins outs)) as H.
  destruct (infer_and_clean_up _ _ _ _ _) as [[[]|[what|what]|] st];
    cbn [fst snd listed cout] in *.
  - destruct H as [[f ->] _]. exists [prediction_line P f]. eauto.
  - rewrite H. exists [error_line what]. eauto.
  - rewrite H. exists []. by rewrite app_nil_r; eauto.
  - destruct H as [->|[f ->]].
    + exists []. by rewrite app_nil_r; eauto.
    + exists [prediction_line P f]. eauto.
Qed.

Lemma signature_is_reported_witness :
  lists Ref.good (Ref.session Ref.forest) ["input"] ["variable"] ∧
  ∃ rest,
    stdout_of (main Ref.good) = signature_report ["input"] ["variable"] ++ rest ∧
    (rest = [] ∨ (∃ f, rest = [prediction_line Ref.good f]) ∨
     ∃ what, rest = [error_line what]).
Proof.
  assert (H : lists Ref.good (Ref.session Ref.forest) ["input"] ["variable"])
    by (apply (Ref_prepared _ Ref.forest); reflexivity).
  exact (conj H (signature_is_reported _ _ _ _ H)).
Defined.

(** C7: on a model with the one input ["input"] and one output, which
    works on tensors of shape [1,4], the program prints the five lines
    of the example, the last one being the prediction, and returns 0. *)
Theorem example_scenario P session out :
  prepared P session ["input"] [out] →
  answers session ["input"] [out] [1; 4]%Z →
  ∃ f,
    stdout_of (main P)
    = ["Number of inputs = 1"; "Input 0 : name=input";
       "Number of outputs = 1"; "Output 0 : name=" +:+ out;
       "Prediction: " +:+ show_float P f] ∧
    exit_of (main P) = Return 0.
Proof.
  intros Hprep Hans.
  destruct (Hans (mkTensor input_tensor_values input_tensor_shape) eq_refl)
    as (v & vs & f & fs & Hrun & Hdata).
  exists f. by rewrite (main_success _ _ _ _ _ _ _ _ _ Hprep Hrun Hdata).
Qed.

Lemma example_scenario_witness :
  prepared Ref.good (Ref.session Ref.forest) ["input"] ["variable"] ∧
  answers (Ref.session Ref.forest) ["input"] ["variable"] [1; 4]%Z ∧
  ∃ f,
    stdout_of (main Ref.good)
    = ["Number of inputs = 1"; "Input 0 : name=input";
       "Number of outputs = 1"; "Output 0 : name=" +:+ "variable";
       "Prediction: " +:+ show_float Ref.good f] ∧
    exit_of (main Ref.good) = Return 0.
Proof.
  assert (H1 : prepared Ref.good (Ref.session Ref.forest) ["input"] ["variable"])
    by (apply (Ref_prepared _ Ref.forest); reflexivity).
  assert (H2 : answers (Ref.session Ref.forest) ["input"] ["variable"] [1; 4]%Z)
    by (apply (Ref_answers Ref.forest "input" _ [] f2_0 []); reflexivity).
  exact (conj H1 (conj H2 (example_scenario _ _ _ H1 H2))).
Defined.

(** C9: an exception of another type than [Ort::Exception] raised in
    the [try] block is not caught: it leaves [main], the handler prints
    nothing, and [main] returns no exit code, in particular not [-1]. *)
Theorem other_exceptions_escape P c what :
  In (c, Threw (StdException what)) (calls_of (main P)) →
  main P = (Uncaught (StdException what), (try_block P init_state).2) ∧
  ∀ code, exit_of (main P) ≠ Return code.
Proof.
  intros Hin. destruct (raised_is_last P c _ Hin) as [Hr _].
  unfold exit_of, main. destruct (try_block P init_state) as [r st].
  cbn [fst snd] in *. by subst.
Qed.

Lemma other_exceptions_escape_witness :
  In (CallVector ElemCharPtr 1, Threw (StdException "std::bad_alloc"))
    (calls_of (main Ref.no_memory)) ∧
  main Ref.no_memory
    = (Uncaught (StdException "std::bad_alloc"), (try_block Ref.no_memory init_state).2) ∧
  ∀ code, exit_of (main Ref.no_memory) ≠ Return code.
Proof.
  assert (H : In (CallVector ElemCharPtr 1, Threw (StdException "std::bad_alloc"))
                (calls_of (main Ref.no_memory))) by (vm_compute; tauto).
  exact (conj H (other_exceptions_escape _ _ _ H)).
Defined.

(** C10: the model path is the constant of line 25: on every platform
    the only model file [main] asks the runtime to open is the one at
    this path, and the run is the same whatever lies at any other
    path. *)
Theorem model_path_is_fixed :
  model_path = "../random_forest_model_v9.onnx" ∧
  (∀ P path o, In (CallSession path, o) (calls_of (main P)) → path = model_path) ∧
  (∀ P other, main (with_other_files P other) = main P).
Proof.
  split; [done|]. split.
  - intros P path o Hin. rewrite calls_of_main in Hin.
    destruct (try_block_log P) as [_ Hpath].
    rewrite Forall_forall in Hpath.
    apply list_elem_of_In, Hpath in Hin. by apply Hin.
  - intros P other. apply main_ext. split; try reflexivity.
    cbn. rewrite decide_True by done. apply same_result_refl.
Qed.

(** ** A name loop that is cut short *)

Lemma name_loop_fails label c name (ss : list string) :
  ∀ k n v pre out log,
    (∀ j s, ss !! j = Some s → name (k + j) = Ok s) →
    (∀ s, name (k + length ss) ≠ Ok s) →
    length ss < n →
    name_loop label c name (seq k n) v (mkState (holding pre) out log)
    = (fail_as (name (k + length ss)),
       mkState (holding (pre ++ ss))
         (out ++ imap (λ j s, label +:+ pretty (k + j) +:+ " : name=" +:+ s) ss)
         (log ++ ((λ j, (c j, Returned)) <$> seq k (length ss))
              ++ [(c (k + length ss), outcome_of (name (k + length ss)))])).
Proof.
  induction ss as [|s ss IH]; intros k [|n] v pre out log Hname Hfail Hlen;
    cbn [length] in *; try lia.
  - rewrite Nat.add_0_r in *. cbn [seq name_loop]. unfold GetNameAllocated.
    rewrite !bind_run. unfold call at 1.
    destruct (name k) as [s|e|]; [by destruct (Hfail s)|..];
      cbn; by rewrite !app_nil_r.
  - cbn [seq]. rewrite (name_loop_step _ _ _ _ _ _ _ s).
    2:{ rewrite <-(Nat.add_0_r k). by apply Hname. }
    replace (k + S (length ss)) with (S k + length ss) in * by lia.
    rewrite IH.
    2:{ intros j s' Hj. replace (S k + j) with (k + S j) by lia. by apply Hname. }
    2:{ done. }
    2:{ lia. }
    f_equal. f_equal.
    + by rewrite <-app_assoc.
    + rewrite <-app_assoc. f_equal. cbn. rewrite Nat.add_0_r. f_equal.
      apply imap_ext. intros j s' _. cbn. do 3 f_equal. lia.
    + by rewrite <-!app_assoc.
Qed.

Lemma delivered_spec name : ∀ n k,
  (∀ j s, delivered name k n !! j = Some s → name (k + j) = Ok s) ∧
  (length (delivered name k n) = n ∨
   (length (delivered name k n) < n ∧
    ∀ s, name (k + length (delivered name k n)) ≠ Ok s)).
Proof.
  induction n as [|n IH]; intros k; cbn [delivered].
  - split; [done | by left].
  - destruct (name k) as [s|e|] eqn:Hk.
    + destruct (IH (S k)) as [Hall Hlen]. split.
      * intros [|j] s' Hj; cbn in Hj.
        -- rewrite Nat.add_0_r. congruence.
        -- replace (k + S j) with (S k + j) by lia. by apply Hall.
      * cbn [length]. destruct Hlen as [Hlen|[Hlen Hfail]]; [left; lia|right].
        split; [lia|]. by replace (k + S (length (delivered name (S k) n)))
          with (S k + length (delivered name (S k) n)) by lia.
    + split; [done|]. right. cbn [length]. rewrite Nat.add_0_r, Hk.
      split; [lia | done].
    + split; [done|]. right. cbn [length]. rewrite Nat.add_0_r, Hk.
      split; [lia | done].
Qed.

(** ** Counting acquisitions *)

Lemma acquired_app log1 log2 : acquired (log1 ++ log2) = acquired log1 + acquired log2.
Proof. apply sum_list_with_app. Qed.

Lemma acquired_returned c (l : list nat) :
  fetches c → acquired ((λ j, (c j, Returned)) <$> l) = length l.
Proof.
  intros Hc. induction l as [|i l IH]; [done|].
  cbn [fmap list_fmap length]. unfold acquired in *. cbn [sum_list_with].
  by rewrite (Hc i Returned), IH.
Qed.

Lemma acquired_failed c i {A} (r : Res A) :
  fetches c → (∀ a, r ≠ Ok a) → acquired [(c i, outcome_of r)] = 0.
Proof.
  intros Hc Hr. unfold acquired. cbn [sum_list_with]. rewrite Hc.
  destruct r as [a|e|]; [by destruct (Hr a)|done..].
Qed.

Lemma fetches_input : fetches CallGetInputNameAllocated.
Proof. by intros i []. Qed.

Lemma fetches_output : fetches CallGetOutputNameAllocated.
Proof. by intros i []. Qed.

(** ** Computations that leave the allocator alone *)

Lemma steady_silent {A} (m : M A) :
  (∀ st, heap (m st).2 = heap st ∧ calls (m st).2 = calls st) → steady m.
Proof. intros H st. destruct (H st) as [Hh Hc]. by rewrite Hh, Hc. Qed.

Lemma steady_ret {A} (a : A) : steady (mret a).
Proof. by apply steady_silent. Qed.

Lemma steady_undefined {A} : steady (@undefined A).
Proof. by apply steady_silent. Qed.

Lemma steady_print line : steady (print line).
Proof. by apply steady_silent. Qed.

Lemma steady_c_str p : steady (c_str p).
Proof.
  apply steady_silent. intros st. unfold c_str.
  by destruct (live (heap st) !! p).
Qed.

Lemma steady_call {A} c (r : Res A) :
  (∀ o, name_fetched (c, o) = false) → steady (call c r).
Proof.
  intros Hc st. cbn. split; [done|].
  rewrite acquired_app. unfold acquired at 2. cbn [sum_list_with].
  rewrite Hc. lia.
Qed.

Lemma steady_bind {A B} (m : M A) (f : A → M B) :
  steady m → (∀ a, steady (f a)) → steady (m ≫= f).
Proof.
  intros Hm Hf st. rewrite bind_run. destruct (Hm st) as [Hh Hc].
  destruct (m st) as [[a|e|] st1]; cbn [fst snd] in *; [|done..].
  destruct (Hf a st1) as [Hh' Hc']. by rewrite Hh', Hc', Hh, Hc.
Qed.

Lemma steady_c_strings names : ∀ count, steady (c_strings names count).
Proof.
  induction names as [|p names IH]; intros [|count]; cbn [c_strings];
    auto using steady_ret, steady_undefined.
  apply steady_bind; [apply steady_c_str|intros s].
  apply steady_bind; [apply IH|intros ss]. apply steady_ret.
Qed.

Ltac steady :=
  repeat first
    [ apply steady_bind; [|intros ?]
    | apply steady_call; by intros []
    | apply steady_ret | apply steady_undefined | apply steady_print
    | apply steady_c_str | apply steady_c_strings ].

Lemma steady_create_session P : steady (create_session P).
Proof. unfold create_session. steady. Qed.

Lemma steady_create_input_tensor P : steady (create_input_tensor P).
Proof. unfold create_input_tensor. steady. Qed.

Lemma steady_run_inference session v_in t v_out :
  steady (run_inference session v_in t v_out).
Proof.
  intros st. unfold run_inference.
  by apply (steady_call CallRun (Session_Run session v_in t 1 v_out (length v_out) st));
    intros [].
Qed.

Lemma steady_print_prediction P output_tensors :
  steady (print_prediction P output_tensors).
Proof.
  unfold print_prediction. steady.
  - destruct (output_tensors !! 0); steady.
  - match goal with |- context [?l !! 0] => destruct (l !! 0) end; steady.
Qed.

Lemma create_session_quiet P st : cout (create_session P st).2 = cout st.
Proof.
  unfold create_session, call. rewrite !bind_run.
  destruct (Env_ctor P) as [[]|e|]; [|done..].
  destruct (SessionOptions_ctor P) as [[]|e|]; [|done..].
  destruct (SetIntraOpNumThreads P 1) as [[]|e|]; [|done..].
  destruct (Session_ctor P model_path) as [s|e|]; [|done..].
  by destruct (Allocator_ctor P) as [[]|e|].
Qed.

(** ** Listing the nodes, on any platform *)

(** Whatever the runtime answers, [print_nodes] leaves the allocator
    holding one more block per name it fetched and nothing else; the
    lines it prints are the count line and the name lines; and when it
    returns, the vector holds the addresses of these blocks, in order. *)
Lemma print_nodes_general P title label cc count c name pre out log :
  fetches c →
  (∀ o, name_fetched (cc, o) = false) →
  (∀ x, ¬ is_prediction_line (title +:+ x)) →
  (∀ x, ¬ is_prediction_line (label +:+ x)) →
  ∃ ss lines,
    heap (print_nodes P title label cc count c name (mkState (holding pre) out log)).2
      = holding (pre ++ ss) ∧
    acquired (calls (print_nodes P title label cc count c name
                       (mkState (holding pre) out log)).2)
      = acquired log + length ss ∧
    cout (print_nodes P title label cc count c name (mkState (holding pre) out log)).2
      = out ++ lines ∧
    Forall (λ line, ¬ is_prediction_line line) lines ∧
    ∀ v, (print_nodes P title label cc count c name (mkState (holding pre) out log)).1
         = Ok v → v = seq (S (length pre)) (length ss).
Proof.
  intros Hc Hcc Htitle Hlabel.
  destruct (print_nodes _ _ _ _ _ _ _ _) as [r st'] eqn:Hres. cbn [fst snd].
  unfold print_nodes in Hres. rewrite bind_run in Hres. unfold call at 1 in Hres.
  assert (Hcc0 : ∀ o, acquired (log ++ [(cc, o)]) = acquired log).
  { intros o. rewrite acquired_app. unfold acquired at 2. cbn [sum_list_with].
    rewrite Hcc. cbn. lia. }
  destruct count as [n|e|]; cbn [outcome_of heap cout calls] in Hres;
    [|injection Hres as <- <-; exists [], []; cbn [heap cout calls];
      rewrite !app_nil_r, Hcc0; split_and!; [done|cbn; lia|done|done|done]..].
  rewrite bind_run in Hres. unfold call at 1 in Hres. cbn [heap cout calls] in Hres.
  assert (Hvec0 : ∀ o, acquired ((log ++ [(cc, Returned)])
                                   ++ [(CallVector ElemCharPtr n, o)]) = acquired log).
  { intros o. rewrite acquired_app, Hcc0. unfold acquired at 2. cbn. lia. }
  destruct (vector_ctor P ElemCharPtr n) as [[]|e|]; cbn [outcome_of] in Hres;
    [|injection Hres as <- <-; exists [], []; cbn [heap cout calls];
      rewrite !app_nil_r, Hvec0; split_and!; [done|cbn; lia|done|done|done]..].
  rewrite bind_run in Hres. cbn [print heap cout calls] in Hres.
  destruct (delivered_spec name n 0) as [Hall [Hlen|[Hlen Hfail]]];
    exists (delivered name 0 n),
      ((title +:+ pretty n)
       :: imap (λ j s, label +:+ pretty (0 + j) +:+ " : name=" +:+ s) (delivered name 0 n)).
  - pose proof (name_loop_ok label c name (delivered name 0 n) 0 (replicate n nullptr)
                  pre (out ++ [title +:+ pretty n])
                  ((log ++ [(cc, Returned)]) ++ [(CallVector ElemCharPtr n, Returned)])
                  Hall) as Hloop.
    rewrite length_replicate, Hlen in Hloop. rewrite Hloop in Hres by done.
    injection Hres as <- <-. cbn [heap cout calls]. rewrite Hlen. split_and!.
    + done.
    + by rewrite acquired_app, Hvec0, acquired_returned, length_seq.
    + by rewrite <-app_assoc.
    + constructor; [apply Htitle|]. apply Forall_forall.
      intros line (j & s & -> & _)%elem_of_lookup_imap. apply Hlabel.
    + intros v [= <-]. rewrite ?take_0. cbn [app Nat.add].
      by rewrite drop_ge, app_nil_r by (by rewrite length_replicate).
  - rewrite (name_loop_fails _ _ _ (delivered name 0 n) 0) in Hres by done.
    injection Hres as <- <-. cbn [heap cout calls]. split_and!.
    + done.
    + rewrite acquired_app, Hvec0, acquired_app, acquired_returned, acquired_failed,
        length_seq by done. lia.
    + by rewrite <-app_assoc.
    + constructor; [apply Htitle|]. apply Forall_forall.
      intros line (j & s & -> & _)%elem_of_lookup_imap. apply Hlabel.
    + intros v Hv. unfold fail_as in Hv. by destruct (name _).
Qed.

(** ** The tensor, the inference and the clean-up, on any platform *)

(** With every fetched name held and the two vectors pointing at them,
    lines 55-79 either run to their end, and then every block is freed,
    or stop before the prediction is printed and before any block is
    freed. *)
Lemma infer_and_clean_up_heap P session ins outs out log :
  match (infer_and_clean_up P session (seq 1 (length ins))
           (seq (S (length ins)) (length outs))
           (mkState (holding (ins ++ outs)) out log)).1 with
  | Ok _ =>
      live (heap (infer_and_clean_up P session (seq 1 (length ins))
                    (seq (S (length ins)) (length outs))
                    (mkState (holding (ins ++ outs)) out log)).2) = ∅
  | _ =>
      heap (infer_and_clean_up P session (seq 1 (length ins))
              (seq (S (length ins)) (length outs))
              (mkState (holding (ins ++ outs)) out log)).2 = holding (ins ++ outs) ∧
      acquired (calls (infer_and_clean_up P session (seq 1 (length ins))
                         (seq (S (length ins)) (length outs))
                         (mkState (holding (ins ++ outs)) out log)).2) = acquired log ∧
      cout (infer_and_clean_up P session (seq 1 (length ins))
              (seq (S (length ins)) (length outs))
              (mkState (holding (ins ++ outs)) out log)).2 = out
  end.
Proof.
  unfold infer_and_clean_up. rewrite bind_run.
  set (st := mkState (holding (ins ++ outs)) out log).
  destruct (steady_create_input_tensor P st) as [Hh1 Ha1].
  pose proof (create_input_tensor_quiet P st) as Hc1.
  destruct (create_input_tensor P st) as [[t|e|] st1]; cbn [fst snd] in *; [|done..].
  rewrite bind_run.
  set (v_in := seq 1 (length ins)). set (v_out := seq (S (length ins)) (length outs)).
  destruct (steady_run_inference session v_in t v_out st1) as [Hh2 Ha2].
  destruct (run_inference_frame session v_in t v_out st1) as [Hc2 _].
  destruct (run_inference session v_in t v_out st1) as [[o|e|] st2];
    cbn [fst snd] in *; [|by rewrite Hh2, Ha2, Hc2, Hh1, Ha1, Hc1..].
  rewrite bind_run.
  destruct (steady_print_prediction P o st2) as [Hh3 Ha3].
  pose proof (print_prediction_frame P o st2) as Hc3.
  destruct (print_prediction P o st2) as [[[]|e|] st3];
    cbn [fst snd] in *; [|by rewrite Hh3, Ha3, Hc3, Hh2, Ha2, Hc2, Hh1, Ha1, Hc1..].
  destruct st3 as [h3 out3 log3]. cbn [heap] in Hh3. subst v_in v_out.
  assert (h3 = holding (ins ++ outs)) as -> by (by rewrite Hh3, Hh2, Hh1).
  by rewrite clean_up_ready.
Qed.

(** ** The [try] block, on any platform *)

(** Release is all or nothing: a [try] block that runs to its end has
    freed every block; a [try] block that stops early has freed none -
    the allocator holds exactly as many blocks as names were fetched -
    and has printed no prediction. *)
Lemma try_block_heap P :
  match (try_block P init_state).1 with
  | Ok _ => live (heap (try_block P init_state).2) = ∅
  | _ =>
      (∃ held, heap (try_block P init_state).2 = holding held ∧
               length held = acquired (calls (try_block P init_state).2)) ∧
      Forall (λ line, ¬ is_prediction_line line) (cout (try_block P init_state).2)
  end.
Proof.
  unfold try_block. rewrite bind_run.
  destruct (steady_create_session P init_state) as [Hh0 Ha0].
  pose proof (create_session_quiet P init_state) as Hc0.
  destruct (create_session P init_state) as [[session|e|] [h0 out0 log0]];
    cbn [fst snd heap cout calls init_state] in *; subst;
    change (acquired []) with 0 in Ha0;
    [|split; [by exists []|constructor]..].
  unfold use_session. rewrite bind_run. unfold print_input_nodes.
  destruct (print_nodes_general P "Number of inputs = " "Input "
              CallGetInputCount (GetInputCount session)
              CallGetInputNameAllocated (GetInputName session) [] [] log0)
    as (ss1 & lines1 & Hh1 & Ha1 & Hc1 & Hl1 & Hv1);
    [apply fetches_input | done | by intros x [rest [=]] | by intros x [rest [=]] |].
  destruct (print_nodes _ _ _ _ _ _ _ _) as [[v1|e|] [h1 out1 log1]];
    cbn [fst snd heap cout calls app length] in *; subst;
    [|split; [exists ss1; split; [done|lia] | done]..].
  rewrite (Hv1 _ eq_refl). clear Hv1.
  rewrite bind_run. unfold print_output_nodes.
  destruct (print_nodes_general P "Number of outputs = " "Output "
              CallGetOutputCount (GetOutputCount session)
              CallGetOutputNameAllocated (GetOutputName session) ss1 lines1 log1)
    as (ss2 & lines2 & Hh2 & Ha2 & Hc2 & Hl2 & Hv2);
    [apply fetches_output | done | by intros x [rest [=]] | by intros x [rest [=]] |].
  destruct (print_nodes _ _ _ _ _ _ _ _) as [[v2|e|] [h2 out2 log2]];
    cbn [fst snd heap cout calls] in *; subst;
    [|split; [exists (ss1 ++ ss2); split; [done|rewrite length_app; lia]
             | by apply Forall_app]..].
  rewrite (Hv2 _ eq_refl). clear Hv2.
  pose proof (infer_and_clean_up_heap P session ss1 ss2 (lines1 ++ lines2) log2) as H.
  destruct (infer_and_clean_up _ _ _ _ _) as [[[]|e|] st3]; cbn [fst snd] in *;
    [done|destruct H as (-> & -> & ->); split;
          [exists (ss1 ++ ss2); split; [done|rewrite length_app; lia]
          | by apply Forall_app]..].
Qed.

Lemma state_of_main P :
  heap (main P).2 = heap (try_block P init_state).2 ∧
  calls (main P).2 = calls (try_block P init_state).2.
Proof.
  unfold main. by destruct (try_block P init_state) as [[[]|[what|what]|] st].
Qed.

(** X1: on every platform, a run that returns [0] has released every
    name string: no block of the allocator is live at exit. *)
Theorem success_releases_every_name P :
  exit_of (main P) = Return 0 → heap_of (main P) = ∅.
Proof.
  rewrite exit_of_main. unfold heap_of. rewrite (proj1 (state_of_main P)).
  pose proof (try_block_heap P) as H.
  by destruct (try_block P init_state).1 as [[]|[what|what]|].
Qed.

Lemma success_releases_every_name_witness :
  exit_of (main Ref.good) = Return 0 ∧ heap_of (main Ref.good) = ∅.
Proof.
  assert (H : exit_of (main Ref.good) = Return 0) by reflexivity.
  exact (conj H (success_releases_every_name _ H)).
Defined.



(** X3: on every platform, a prediction line appears in the output only
    of a run that returns [0]: once line 71 has printed, the clean-up
    cannot fail, and no failing run prints a prediction. *)
Theorem prediction_only_on_success P line :
  In line (stdout_of (main P)) →
  is_prediction_line line →
  exit_of (main P) = Return 0.
Proof.
  rewrite exit_of_main, stdout_of_main. pose proof (try_block_heap P) as H.
  destruct (try_block P init_state).1 as [[]|[what|what]|]; [done|..];
    destruct H as [_ Hout]; rewrite Forall_forall in Hout; intros Hin Hpred.
  - apply in_app_iff in Hin as [Hin|[<-|[]]].
    + by apply list_elem_of_In, Hout in Hin.
    + by apply error_line_not_prediction in Hpred.
  - by apply list_elem_of_In, Hout in Hin.
  - by apply list_elem_of_In, Hout in Hin.
Qed.

Lemma prediction_only_on_success_witness :
  In "Prediction: 2" (stdout_of (main Ref.good)) ∧
  is_prediction_line "Prediction: 2" ∧
  exit_of (main Ref.good) = Return 0.
Proof.
  assert (H1 : In "Prediction: 2" (stdout_of (main Ref.good))) by (vm_compute; tauto).
  assert (H2 : is_prediction_line "Prediction: 2") by (by exists "2").
  exact (conj H1 (conj H2 (prediction_only_on_success _ _ H1 H2))).
Defined.

(** ** Bounds *)

(** X4: on a model that declares no input, the program still passes an
    input count of one: inside the call of [Run] the runtime reads the
    first name from an empty array, and the behaviour of the run is
    undefined. *)
Theorem no_inputs_is_undefined P session outs :
  prepared P session [] outs →
  exit_of (main P) = UB.
Proof.
  intros Hprep. unfold main. by rewrite (try_block_prepared _ _ _ _ Hprep).
Qed.

Lemma no_inputs_is_undefined_witness :
  prepared Ref.no_inputs (Ref.session Ref.constant_graph) [] ["variable"] ∧
  exit_of (main Ref.no_inputs) = UB.
Proof.
  assert (H : prepared Ref.no_inputs (Ref.session Ref.constant_graph) [] ["variable"])
    by (apply (Ref_prepared _ Ref.constant_graph); reflexivity).
  exact (conj H (no_inputs_is_undefined _ _ _ H)).
Defined.

(** X5: on a model that declares no output, [Run] is asked for no value;
    when it returns none, [output_tensors[0]] reads past the end of an
    empty vector, and the behaviour of the run is undefined. *)
Theorem no_output_value_is_undefined P session i0 ins' :
  prepared P session (i0 :: ins') [] →
  Run session [i0] (mkTensor input_tensor_values input_tensor_shape) [] = Ok [] →
  exit_of (main P) = UB.
Proof.
  intros Hprep Hrun. unfold main.
  rewrite (try_block_prepared _ _ _ _ Hprep).
  by rewrite bind_run, run_inference_ready, Hrun.
Qed.

Lemma no_output_value_is_undefined_witness :
  prepared Ref.no_outputs (Ref.session Ref.sink_graph) ["input"] [] ∧
  exit_of (main Ref.no_outputs) = UB.
Proof.
  assert (H : prepared Ref.no_outputs (Ref.session Ref.sink_graph) ["input"] [])
    by (apply (Ref_prepared _ Ref.sink_graph); reflexivity).
  exact (conj H (no_output_value_is_undefined _ _ _ _ H eq_refl)).
Defined.

(** X6: when the first output tensor holds no element, [floatarr[0]]
    reads past the end of its buffer, and the behaviour of the run is
    undefined. *)
Theorem empty_output_tensor_is_undefined P session i0 ins' outs v vs :
  prepared P session (i0 :: ins') outs →
  Run session [i0] (mkTensor input_tensor_values input_tensor_shape) outs = Ok (v :: vs) →
  GetTensorMutableData v = Ok [] →
  exit_of (main P) = UB.
Proof.
  intros Hprep Hrun Hdata. unfold main.
  rewrite (try_block_prepared _ _ _ _ Hprep).
  rewrite bind_run, run_inference_ready, Hrun. cbn [call outcome_of].
  rewrite bind_run. unfold print_prediction. cbn [lookup list_lookup].
  by rewrite (bind_call _ _ _ _ _ Hdata).
Qed.

Lemma empty_output_tensor_is_undefined_witness :
  prepared Ref.empty_output (Ref.session Ref.empty_graph) ["input"] ["variable"] ∧
  exit_of (main Ref.empty_output) = UB.
Proof.
  assert (H : prepared Ref.empty_output (Ref.session Ref.empty_graph)
                ["input"] ["variable"])
    by (apply (Ref_prepared _ Ref.empty_graph); reflexivity).
  exact (conj H (empty_output_tensor_is_undefined _ _ _ _ _
                   (mkOrtValue (Ok [])) [] H eq_refl eq_refl)).
Defined.

(** X7: the program feeds one input, whatever the model declares: on a
    model with two or more inputs, and a runtime that rejects a feed
    that misses a declared input, every run ends in the handler. *)
Theorem several_inputs_fail P session i0 i1 ins' outs :
  prepared P session (i0 :: i1 :: ins') outs →
  requires_all_inputs session (i0 :: i1 :: ins') →
  ∃ what,
    exit_of (main P) = Return (-1) ∧
    stdout_of (main P)
      = signature_report (i0 :: i1 :: ins') outs ++ [error_line what].
Proof.
  intros Hprep Hreq.
  destruct (Hreq [i0] (mkTensor input_tensor_values input_tensor_shape) outs)
    as [what Hrun]; [done|].
  exists what. by rewrite (main_run_throws _ _ _ _ _ _ Hprep Hrun).
Qed.

Lemma Ref_requires_all_inputs m a b rest :
  Ref.inputs m = a :: b :: rest →
  requires_all_inputs (Ref.session m) (Ref.inputs m).*1.
Proof.
  intros Hm in_names t out_names _. cbn. unfold Ref.run. rewrite Hm.
  destruct a. by eexists.
Qed.

Lemma several_inputs_fail_witness :
  prepared Ref.two_inputs (Ref.session Ref.binary_graph) ["left"; "right"] ["variable"] ∧
  requires_all_inputs (Ref.session Ref.binary_graph) ["left"; "right"] ∧
  ∃ what,
    exit_of (main Ref.two_inputs) = Return (-1) ∧
    stdout_of (main Ref.two_inputs)
      = signature_report ["left"; "right"] ["variable"] ++ [error_line what].
Proof.
  assert (H1 : prepared Ref.two_inputs (Ref.session Ref.binary_graph)
                 ["left"; "right"] ["variable"])
    by (apply (Ref_prepared _ Ref.binary_graph); reflexivity).
  assert (H2 : requires_all_inputs (Ref.session Ref.binary_graph) ["left"; "right"])
    by (eapply (Ref_requires_all_inputs Ref.binary_graph); reflexivity).
  exact (conj H1 (conj H2 (several_inputs_fail _ _ _ _ _ _ H1 H2))).
Defined.

(** ** The listing *)

(** X8: a failure while the input names are fetched stops the listing
    there: the output is the count line, the lines of the names fetched
    before, in order, and the error line; the outputs are never asked
    for; [main] returns [-1] with the names fetched so far still held. *)
Theorem listing_stops_at_first_failure P session n (got : list string) what :
  opens P session →
  GetInputCount session = Ok n →
  vector_ctor P ElemCharPtr n = Ok () →
  (∀ j s, got !! j = Some s → GetInputName session j = Ok s) →
  length got < n →
  GetInputName session (length got) = Throw (OrtException what) →
  exit_of (main P) = Return (-1) ∧
  stdout_of (main P)
    = ["Number of inputs = " +:+ pretty n] ++ name_lines "Input " got ++ [error_line what] ∧
  heap (main P).2 = holding got ∧
  ∀ o, ¬ In (CallGetOutputCount, o) (calls_of (main P)).
Proof.
  intros [He Ho Ht Hs Ha] Hcount Hvec Hgot Hlen Hfail.
  assert (Hmain : main P
    = (Return (-1),
       mkState (holding got)
         (["Number of inputs = " +:+ pretty n] ++ name_lines "Input " got
            ++ [error_line what])
         (returned [CallEnv; CallSessionOptions; CallSetIntraOpNumThreads 1;
                    CallSession model_path; CallAllocator;
                    CallGetInputCount; CallVector ElemCharPtr n]
          ++ returned (CallGetInputNameAllocated <$> seq 0 (length got))
          ++ [(CallGetInputNameAllocated (length got), Threw (OrtException what))]))).
  { unfold main, try_block.
    erewrite bind_ok by (by apply create_session_ok).
    unfold use_session, print_input_nodes, print_nodes.
    cbn [init_state heap cout calls app]. change init_heap with (holding []).
    rewrite bind_run, (bind_call _ _ _ _ _ Hcount). cbn [heap cout calls].
    rewrite (bind_call _ _ _ _ _ Hvec). cbn [heap cout calls].
    rewrite bind_run. cbn [print heap cout calls].
    rewrite (name_loop_fails _ _ _ got 0);
      [|done|by intros s; cbn [Nat.add]; rewrite Hfail|done].
    cbn [Nat.add]. rewrite Hfail. cbn [fail_as outcome_of print snd cout heap calls app].
    rewrite returned_fmap. unfold name_lines, error_line.
    reflexivity. }
  rewrite Hmain. split; [done|]. split; [done|]. split; [done|].
  intros o. unfold calls_of. cbn [snd calls]. rewrite !in_app_iff. cbn [In returned fmap list_fmap].
  intros H.
  repeat match goal with
         | H : _ ∨ _ |- _ => destruct H
         | H : In _ (returned (_ <$> _)) |- _ =>
             rewrite returned_fmap in H;
             apply list_elem_of_In, list_elem_of_fmap in H as (? & [=] & _)
         | H : (_, _) = (CallGetOutputCount, _) |- _ => discriminate H
         | H : False |- _ => destruct H
         end.
Qed.

Lemma listing_stops_at_first_failure_witness :
  exit_of (main Ref.flaky) = Return (-1) ∧
  stdout_of (main Ref.flaky)
    = ["Number of inputs = " +:+ pretty 3] ++ name_lines "Input " ["left"; "right"]
        ++ [error_line "name unavailable"] ∧
  heap (main Ref.flaky).2 = holding ["left"; "right"] ∧
  ∀ o, ¬ In (CallGetOutputCount, o) (calls_of (main Ref.flaky)).
Proof.
  apply (listing_stops_at_first_failure Ref.flaky Ref.flaky_session 3
           ["left"; "right"] "name unavailable"); try done.
  - by intros [|[|j]] s [= <-].
  - cbn. lia.
Defined.

(** X9: the listing is a faithful copy: when the session delivers every
    declared name, the vector the loop fills has one slot per name, none
    of them null, and reading the C strings back through it gives the
    declared names, in declaration order. *)
Theorem names_read_back P title label cc count c name names pre out log :
  reports count name names →
  vector_ctor P ElemCharPtr (length names) = Ok () →
  ∃ v st',
    print_nodes P title label cc count c name (mkState (holding pre) out log)
      = (Ok v, st') ∧
    length v = length names ∧
    ¬ In nullptr v ∧
    c_strings v (length names) st' = (Ok names, st').
Proof.
  intros Hrep Hvec. eexists _, _. split; [by apply print_nodes_ok|].
  split; [apply length_seq|]. split.
  - rewrite in_seq. unfold nullptr. lia.
  - pose proof (c_strings_holding names (length names) pre []) as Hread.
    rewrite app_nil_r, firstn_all in Hread. by apply Hread.
Qed.

Lemma names_read_back_witness :
  reports (Ok 2) (Ref.name_at ["left"; "right"]) ["left"; "right"] ∧
  ∃ v st',
    print_nodes Ref.good "Number of inputs = " "Input " CallGetInputCount (Ok 2)
      CallGetInputNameAllocated (Ref.name_at ["left"; "right"])
      (mkState (holding []) [] [])
      = (Ok v, st') ∧
    length v = 2 ∧
    ¬ In nullptr v ∧
    c_strings v 2 st' = (Ok ["left"; "right"], st').
Proof.
  assert (H : reports (Ok 2) (Ref.name_at ["left"; "right"]) ["left"; "right"])
    by apply (Ref_reports ["left"; "right"]).
  exact (conj H (names_read_back Ref.good "Number of inputs = " "Input "
                   CallGetInputCount (Ok 2) CallGetInputNameAllocated
                   (Ref.name_at ["left"; "right"]) ["left"; "right"] [] [] []
                   H eq_refl)).
Defined.
